(** * Review Analyzer Server: a shallow embedding of [server.py]

    The WSGI application of [server.py] keeps a list of review dictionaries
    ([self.reviews]), answers [GET] with a filtered, sentiment-ranked view of
    it and appends a new review on [POST].  The review dictionaries are
    mutable Python objects that the store and the lists built by the handlers
    share, so the model keeps them in a heap indexed by object identity and
    lets lists hold references. *)

From Stdlib Require Import ZArith Ascii String.
From stdpp Require Import gmap strings list sorting.

Local Open Scope string_scope.
Local Open Scope list_scope.

(** ** Dates and times *)

Module Datetime.

(** A naive [datetime.datetime] down to the second.  Every value the server
    compares comes from [strptime] with a format without [%f], so the
    microsecond field is always zero and is left out. *)
Record datetime := mk {
  year : nat; month : nat; day : nat;
  hour : nat; minute : nat; second : nat
}.

Definition lex (c k : comparison) : comparison :=
  match c with Eq => k | _ => c end.

(** [datetime._cmp]: the field tuples are compared lexicographically. *)
Definition cmp (a b : datetime) : comparison :=
  lex (year a ?= year b)%nat
   (lex (month a ?= month b)%nat
    (lex (day a ?= day b)%nat
     (lex (hour a ?= hour b)%nat
      (lex (minute a ?= minute b)%nat
           (second a ?= second b)%nat)))).

(** [a >= b] and [a <= b] on datetimes. *)
Definition ge (a b : datetime) : bool :=
  match cmp a b with Lt => false | _ => true end.
Definition le (a b : datetime) : bool :=
  match cmp a b with Gt => false | _ => true end.

Definition is_leap (y : nat) : bool :=
  (y mod 4 =? 0)%nat && (negb (y mod 100 =? 0)%nat || (y mod 400 =? 0)%nat).

Definition days_in_month (y m : nat) : nat :=
  match m with
  | 2 => if is_leap y then 29 else 28
  | 4 | 6 | 9 | 11 => 30
  | _ => 31
  end.

(** [datetime.MAXYEAR], 9999. *)
Definition MAXYEAR : nat := 9 * 1000 + 999.

(** The range checks of the [date] and [datetime] constructors; each
    failure is a [ValueError].  The upper bound [MAXYEAR] is not tested: a
    year read by [%Y] has four digits. *)
Definition valid (d : datetime) : bool :=
  (1 <=? year d)%nat &&
  (1 <=? month d)%nat && (month d <=? 12)%nat &&
  (1 <=? day d)%nat && (day d <=? days_in_month (year d) (month d))%nat &&
  (hour d <=? 23)%nat && (minute d <=? 59)%nat && (second d <=? 59)%nat.

Definition make (y m d h mi s : nat) : option datetime :=
  let v := mk y m d h mi s in if valid v then Some v else None.

(** *** The regular expressions of [_strptime.TimeRE]

    A directive is an ordered list of alternatives, each a sequence of
    character classes.  The classes are those of the library on ASCII text:
    [\d] is [0-9] and [\s] is the ASCII white space of [str.isspace] (tab to
    carriage return, the four separators 28 to 31, and the blank).  Outside
    ASCII the library's classes are larger (any Unicode decimal digit, any
    Unicode blank), so a string the functions below accept is accepted by
    the library, and a string they reject is rejected by the library when it
    is ASCII ([isascii]). *)
Definition cls := ascii → bool.

Definition rng (lo hi : ascii) : cls := λ c,
  (nat_of_ascii lo <=? nat_of_ascii c)%nat && (nat_of_ascii c <=? nat_of_ascii hi)%nat.
Definition lit (a : ascii) : cls := λ c, Ascii.eqb c a.
Definition digit : cls := rng "0" "9".
Definition space : cls := λ c,
  let n := nat_of_ascii c in
  ((9 <=? n) && (n <=? 13) || (28 <=? n) && (n <=? 32))%nat.

(** Match a sequence of classes at the head of [s]: the text matched and
    what is left. *)
Fixpoint match_seq (p : list cls) (s : string) : option (string * string) :=
  match p with
  | [] => Some ("", s)
  | k :: p' =>
      match s with
      | String c s' =>
          if k c then
            match match_seq p' s' with
            | Some (m, r) => Some (String c m, r)
            | None => None
            end
          else None
      | EmptyString => None
      end
  end.

(** The first alternative that matches, as the regex engine tries them. *)
Fixpoint match_alt (alts : list (list cls)) (s : string) : option (string * string) :=
  match alts with
  | [] => None
  | p :: alts' =>
      match match_seq p s with
      | Some r => Some r
      | None => match_alt alts' s
      end
  end.

(** [\s+] *)
Fixpoint skip_spaces (s : string) : string :=
  match s with
  | String c s' => if space c then skip_spaces s' else s
  | EmptyString => s
  end.
Definition spaces1 (s : string) : option string :=
  match s with
  | String c s' => if space c then Some (skip_spaces s') else None
  | EmptyString => None
  end.

Definition re_Y : list (list cls) := [[digit; digit; digit; digit]].
Definition re_m : list (list cls) :=
  [[lit "1"; rng "0" "2"]; [lit "0"; rng "1" "9"]; [rng "1" "9"]].
Definition re_d : list (list cls) :=
  [[lit "3"; rng "0" "1"]; [rng "1" "2"; digit]; [lit "0"; rng "1" "9"];
   [rng "1" "9"]; [lit " "; rng "1" "9"]].
Definition re_H : list (list cls) :=
  [[lit "2"; rng "0" "3"]; [rng "0" "1"; digit]; [digit]].
Definition re_M : list (list cls) := [[rng "0" "5"; digit]; [digit]].
Definition re_S : list (list cls) :=
  [[lit "6"; rng "0" "1"]; [rng "0" "5"; digit]; [digit]].

(** [int(text)] on the text of a numeric group: decimal digits, with the
    blank that [%d] may have matched in front skipped. *)
Fixpoint int_acc (acc : nat) (s : string) : nat :=
  match s with
  | EmptyString => acc
  | String c s' =>
      if digit c then int_acc (10 * acc + (nat_of_ascii c - 48)) s'
      else int_acc acc s'
  end.
Definition int (s : string) : nat := int_acc 0 s.

Definition group (re : list (list cls)) (s : string) : option (nat * string) :=
  '(m, r) ← match_alt re s; Some (int m, r).
Definition sep (a : ascii) (s : string) : option string :=
  '(_, r) ← match_seq [lit a] s; Some r.

(** The date part [%Y-%m-%d], shared by the two formats. *)
Definition ymd (s : string) : option (nat * nat * nat * string) :=
  '(y, s) ← group re_Y s;
  s ← sep "-" s;
  '(m, s) ← group re_m s;
  s ← sep "-" s;
  '(d, s) ← group re_d s;
  Some (y, m, d, s).

(** [datetime.strptime(s, '%Y-%m-%d')]; [None] is [ValueError] (no match,
    unconverted data left, or a field out of range). *)
Definition strptime_date (s : string) : option datetime :=
  '(y, m, d, s) ← ymd s;
  if decide (s = "") then make y m d 0 0 0 else None.

(** [datetime.strptime(s, '%Y-%m-%d %H:%M:%S')]. *)
Definition strptime_datetime (s : string) : option datetime :=
  '(y, m, d, s) ← ymd s;
  s ← spaces1 s;
  '(h, s) ← group re_H s;
  s ← sep ":" s;
  '(mi, s) ← group re_M s;
  s ← sep ":" s;
  '(sec, s) ← group re_S s;
  if decide (s = "") then make y m d h mi sec else None.

(** *** [strftime('%Y-%m-%d %H:%M:%S')]

    Each field is written in decimal with leading zeros, the year with four
    digits.  This is the library for the years 1000 to 9999: how a year of
    less than four digits is written depends on the C library (glibc does
    not pad it), so what is proved of a timestamp written assumes
    [1000 ≤ year]. *)
Definition digit_char (n : nat) : ascii := ascii_of_nat (48 + n mod 10).
Definition two (n : nat) (k : string) : string :=
  String (digit_char (n / 10)) (String (digit_char n) k).
Definition four (n : nat) (k : string) : string :=
  String (digit_char (n / 1000)) (String (digit_char (n / 100)) (two n k)).

Definition strftime (d : datetime) : string :=
  four (year d) (String "-" (two (month d) (String "-" (two (day d)
    (String " " (two (hour d) (String ":" (two (minute d)
      (String ":" (two (second d) "")))))))))).

End Datetime.

Arguments Datetime.strptime_date : simpl never.
Arguments Datetime.strptime_datetime : simpl never.

(** [str.isascii]: every character is below 128. *)
Definition isascii (s : string) : bool :=
  forallb (λ c, (nat_of_ascii c <? 128)%nat) (list_ascii_of_string s).


(** ** Reviews, the store and the responses *)

(** The dictionary [sia.polarity_scores] returns.  VADER rounds [compound]
    to four decimals and the other three to three decimals; a score is held
    as the integer it is a multiple of (ten-thousandths and thousandths), so
    the order of the floats is the order of the integers. *)
Record scores := { neg : Z; neu : Z; pos : Z; compound : Z }.

(** A review dictionary.  The rows loaded from the CSV file have no
    ["sentiment"] key until a request sets it. *)
Record Review := {
  ReviewId : string;
  Location : string;
  Timestamp : string;
  ReviewBody : string;
  sentiment : option scores
}.

#[export] Instance Review_inhabited : Inhabited Review :=
  populate {| ReviewId := ""; Location := ""; Timestamp := ""; ReviewBody := "";
              sentiment := None |}.

(** Object identity of a review dictionary. *)
Definition ref := nat.

(** The state of the server: the dictionaries alive, and [self.reviews], the
    list object that holds references to them. *)
Record State := {
  heap : gmap ref Review;
  reviews : list ref
}.

(** What a list variable of a handler is bound to: the list object of the
    store itself, or a list the handler built. *)
Inductive listvar :=
  | StoreList
  | FreshList (l : list ref).

Definition contents (st : State) (v : listvar) : list ref :=
  match v with StoreList => reviews st | FreshList l => l end.

(** The response handed to [start_response] with its body, before JSON
    encoding; the body of a 400 response is the object [{"error": error}]. *)
Inductive response :=
  | Ok200 (body : list Review)
  | Created201 (body : Review)
  | BadRequest400 (error : string)
  | MethodNotAllowed405.

Inductive exn := ValueError.

(** How a call of the application ends. *)
Inductive outcome :=
  | Returned (r : response)
  | Raised (e : exn).

(** Control inside a handler: go on with a value, [return] a response, or
    raise. *)
Inductive flow (A : Type) :=
  | Next (a : A)
  | Return (r : response)
  | Raise (e : exn).
Arguments Next {A} a.
Arguments Return {A} r.
Arguments Raise {A} e.

#[export] Instance flow_bind : MBind flow := λ A B k m,
  match m with
  | Next a => k a
  | Return r => Return r
  | Raise e => Raise e
  end.

(** [strptime] inside a handler. *)
Definition parsed {A} (o : option A) : flow A :=
  match o with Some a => Next a | None => Raise ValueError end.

(** *** Request parameters *)

(** The [name=value] fields of a query string or form body, split and
    decoded as [urllib.parse.parse_qsl] does before it drops blank values. *)
Definition fields := list (string * string).

(** One turn of the loop of [parse_qs] with [keep_blank_values=False]: a
    field with an empty value is skipped, another is added to the list of
    its name. *)
Definition parse_qs_add (parsed_result : gmap string (list string))
    (field : string * string) : gmap string (list string) :=
  let '(name, value) := field in
  if decide (value = "") then parsed_result
  else match parsed_result !! name with
       | Some vs => <[name := vs ++ [value]]> parsed_result
       | None => <[name := [value]]> parsed_result
       end.

Definition parse_qs (qs : fields) : gmap string (list string) :=
  foldl parse_qs_add ∅ qs.

(** [params.get(key, [None])[0]] *)
Definition get0 (params : gmap string (list string)) (key : string) : option string :=
  match params !! key with
  | Some vs => head vs
  | None => None
  end.

(** Truth value of an optional string: [None] and [''] are false. *)
Definition truthy (o : option string) : option string :=
  match o with
  | Some "" => None
  | _ => o
  end.

Definition allowed_locations : gset string :=
  {[ "Albuquerque, New Mexico";
     "Carlsbad, California";
     "Chula Vista, California";
     "Colorado Springs, Colorado";
     "Denver, Colorado";
     "El Cajon, California";
     "El Paso, Texas";
     "Escondido, California";
     "Fresno, California";
     "La Mesa, California";
     "Las Vegas, Nevada";
     "Los Angeles, California";
     "Oceanside, California";
     "Phoenix, Arizona";
     "Sacramento, California";
     "Salt Lake City, Utah";
     "San Diego, California";
     "Tucson, Arizona" ]}.

(** *** The list comprehensions of [handle_get] *)

(** [[review for review in l if review["Location"] == location]] *)
Definition by_location (h : gmap ref Review) (location : string) (l : list ref) : list ref :=
  filter (λ r, Location (h !!! r) = location) l.

(** [[review for review in l if keep(strptime(review["Timestamp"]))]]; [None]
    when a timestamp makes [strptime] raise. *)
Fixpoint by_timestamp (h : gmap ref Review) (keep : Datetime.datetime → bool)
    (l : list ref) : option (list ref) :=
  match l with
  | [] => Some []
  | r :: l' =>
      t ← Datetime.strptime_datetime (Timestamp (h !!! r));
      rest ← by_timestamp h keep l';
      Some (if keep t then r :: rest else rest)
  end.

(** Stable sort by decreasing key: [list.sort(key=..., reverse=True)].
    An element passes only the elements with a strictly greater key, so equal
    keys keep their order. *)
Fixpoint insert_desc (key : ref → Z) (x : ref) (l : list ref) : list ref :=
  match l with
  | [] => [x]
  | y :: l' =>
      if bool_decide (key x < key y)%Z then y :: insert_desc key x l'
      else x :: y :: l'
  end.

Definition sort_desc (key : ref → Z) (l : list ref) : list ref :=
  foldr (insert_desc key) [] l.

(** The order of a list sorted by decreasing key. *)
Definition desc (key : ref → Z) (x y : ref) : Prop := (key y ≤ key x)%Z.

(** [x['sentiment']['compound']] *)
Definition compound_of (rv : Review) : Z :=
  match sentiment rv with Some s => compound s | None => 0%Z end.

(** A request as [__call__] sees it; the fresh UUID and the clock reading a
    [POST] consumes are part of it. *)
Inductive request :=
  | GET (QUERY_STRING : fields)
  | POST (form : fields) (uuid4 : string) (now : Datetime.datetime)
  | OTHER.

Section Server.

(** [sia.polarity_scores] *)
Variable polarity_scores : string → scores.

Definition analyze_sentiment (review_body : string) : scores :=
  polarity_scores review_body.

(** [review["sentiment"] = self.analyze_sentiment(review["ReviewBody"])] *)
Definition set_sentiment (rv : Review) : Review :=
  {| ReviewId := ReviewId rv; Location := Location rv; Timestamp := Timestamp rv;
     ReviewBody := ReviewBody rv;
     sentiment := Some (analyze_sentiment (ReviewBody rv)) |}.

(** The [for] loop of [handle_get] over the dictionaries of a list. *)
Definition annotate (l : list ref) (h : gmap ref Review) : gmap ref Review :=
  foldl (λ h r, alter set_sentiment r h) h l.

(** Lines 96 to 100 of [handle_get]: the location filter. *)
Definition location_step (location : option string) (st : State)
    (filtered_reviews : listvar) : flow listvar :=
  match truthy location with
  | Some location =>
      if decide (location ∈ allowed_locations) then
        Next (FreshList (by_location (heap st) location (contents st filtered_reviews)))
      else Return (BadRequest400 "Invalid location")
  | None => Next filtered_reviews
  end.

(** Lines 102 to 104: the start date filter. *)
Definition start_step (start_date : option string) (st : State)
    (filtered_reviews : listvar) : flow listvar :=
  match truthy start_date with
  | Some start_date =>
      start_date ← parsed (Datetime.strptime_date start_date);
      l ← parsed (by_timestamp (heap st) (λ t, Datetime.ge t start_date)
                    (contents st filtered_reviews));
      Next (FreshList l)
  | None => Next filtered_reviews
  end.

(** Lines 106 to 108: the end date filter. *)
Definition end_step (end_date : option string) (st : State)
    (filtered_reviews : listvar) : flow listvar :=
  match truthy end_date with
  | Some end_date =>
      end_date ← parsed (Datetime.strptime_date end_date);
      l ← parsed (by_timestamp (heap st) (λ t, Datetime.le t end_date)
                    (contents st filtered_reviews));
      Next (FreshList l)
  | None => Next filtered_reviews
  end.

(** Lines 95 to 108 of [handle_get]: the list [filtered_reviews] ends up
    bound to, a 400 response, or an exception. *)
Definition select (location start_date end_date : option string) (st : State)
    : flow listvar :=
  let filtered_reviews := StoreList in
  filtered_reviews ← location_step location st filtered_reviews;
  filtered_reviews ← start_step start_date st filtered_reviews;
  end_step end_date st filtered_reviews.

(** Lines 110 to 120: score every dictionary of the list, sort the list
    object in place, answer with its contents. *)
Definition respond (filtered_reviews : listvar) (st : State) : outcome * State :=
  let h := annotate (contents st filtered_reviews) (heap st) in
  let sorted := sort_desc (λ r, compound_of (h !!! r)) (contents st filtered_reviews) in
  (Returned (Ok200 ((h !!!.) <$> sorted)),
   {| heap := h;
      reviews := match filtered_reviews with
                 | StoreList => sorted
                 | FreshList _ => reviews st
                 end |}).

(** [handle_get] once the three parameters are read. *)
Definition query (location start_date end_date : option string) (st : State)
    : outcome * State :=
  match select location start_date end_date st with
  | Next filtered_reviews => respond filtered_reviews st
  | Return r => (Returned r, st)
  | Raise e => (Raised e, st)
  end.

(** [handle_get]; the request is the fields of [environ["QUERY_STRING"]]. *)
Definition handle_get (QUERY_STRING : fields) (st : State) : outcome * State :=
  let params := parse_qs QUERY_STRING in
  let location := get0 params "location" in
  let start_date := get0 params "start_date" in
  let end_date := get0 params "end_date" in
  query location start_date end_date st.

(** [handle_post] once the two parameters are read; [uuid4] is the string of
    the UUID drawn and [now] the reading of the clock.  The new dictionary
    is a new object: its reference is one the heap does not hold. *)
Definition submit (location review_body : option string) (uuid4 : string)
    (now : Datetime.datetime) (st : State) : outcome * State :=
  match truthy location, truthy review_body with
  | Some location, Some review_body =>
      if decide (location ∈ allowed_locations) then
        let new_review :=
          {| ReviewId := uuid4;
             Location := location;
             Timestamp := Datetime.strftime now;
             ReviewBody := review_body;
             sentiment := Some (analyze_sentiment review_body) |} in
        let r := fresh (dom (heap st)) in
        (Returned (Created201 new_review),
         {| heap := <[r := new_review]> (heap st);
            reviews := reviews st ++ [r] |})
      else (Returned (BadRequest400 "Invalid location"), st)
  | _, _ => (Returned (BadRequest400 "Location and ReviewBody are required"), st)
  end.

(** [handle_post]; the request is the fields of the form body read from
    [environ['wsgi.input']]. *)
Definition handle_post (form : fields) (uuid4 : string) (now : Datetime.datetime)
    (st : State) : outcome * State :=
  let params := parse_qs form in
  let location := get0 params "Location" in
  let review_body := get0 params "ReviewBody" in
  submit location review_body uuid4 now st.

(** [__call__] *)
Definition call (req : request) (st : State) : outcome * State :=
  match req with
  | GET qs => handle_get qs st
  | POST form uuid4 now => handle_post form uuid4 now st
  | OTHER => (Returned MethodNotAllowed405, st)
  end.

(** The state after a sequence of requests. *)
Definition run (reqs : list request) (st : State) : State :=
  foldl (λ st req, (call req st).2) st reqs.

End Server.

(** The records of the store, in order. *)
Definition records (st : State) : list Review := (heap st !!!.) <$> reviews st.

(** Every reference of the store is a live dictionary. *)
Definition wf (st : State) : Prop := ∀ r, r ∈ reviews st → is_Some (heap st !! r).

(** ** The filter as the specification words it

    A record survives when it passes each filter that is given: its location
    equals the filter string, its timestamp is not before midnight of the
    start date and not after midnight of the end date. *)

Definition midnight (d : Datetime.datetime) : Datetime.datetime :=
  Datetime.mk (Datetime.year d) (Datetime.month d) (Datetime.day d) 0 0 0.

Definition location_matches (location : option string) (rv : Review) : bool :=
  match truthy location with
  | Some loc => bool_decide (Location rv = loc)
  | None => true
  end.

Definition not_before (start_date : option string) (rv : Review) : bool :=
  match truthy start_date with
  | Some s =>
      match Datetime.strptime_date s, Datetime.strptime_datetime (Timestamp rv) with
      | Some d, Some t => Datetime.ge t (midnight d)
      | _, _ => false
      end
  | None => true
  end.

Definition not_after (end_date : option string) (rv : Review) : bool :=
  match truthy end_date with
  | Some s =>
      match Datetime.strptime_date s, Datetime.strptime_datetime (Timestamp rv) with
      | Some d, Some t => Datetime.le t (midnight d)
      | _, _ => false
      end
  | None => true
  end.

Definition survives (location start_date end_date : option string) (rv : Review) : bool :=
  location_matches location rv && not_before start_date rv && not_after end_date rv.

(** A filter is well formed when it is absent (or empty) or a value the
    handler accepts. *)
Definition location_wf (location : option string) : Prop :=
  ∀ loc, truthy location = Some loc → loc ∈ allowed_locations.
Definition date_wf (date : option string) : Prop :=
  ∀ s, truthy date = Some s → is_Some (Datetime.strptime_date s).

(** Every stored timestamp is a point in time. *)
Definition timestamps_wf (st : State) : Prop :=
  ∀ r, r ∈ reviews st → is_Some (Datetime.strptime_datetime (Timestamp (heap st !!! r))).

(** A sequence of records in descending order of [sentiment.compound]. *)
Definition descending (body : list Review) : Prop :=
  StronglySorted (λ a b, (compound_of b ≤ compound_of a)%Z) body.

(** Two records with the same id, location, body and timestamp. *)
Definition same_fields (a b : Review) : Prop :=
  ReviewId a = ReviewId b ∧ Location a = Location b ∧
  ReviewBody a = ReviewBody b ∧ Timestamp a = Timestamp b.

(** The score of a stored record: the compound score the scorer gives its
    body. *)
Definition score_of (polarity_scores : string → scores) (rv : Review) : Z :=
  compound (polarity_scores (ReviewBody rv)).

(** A returned record is the stored record scored: the same id, location,
    body and timestamp, and for sentiment what the scorer gives the stored
    body. *)
Definition scored (polarity_scores : string → scores) (stored returned : Review) : Prop :=
  same_fields stored returned ∧
  sentiment returned = Some (polarity_scores (ReviewBody stored)).

(** The strings of the set literal of [__init__], lines 48 to 65. *)
Definition listed_locations : list string :=
  [ "Albuquerque, New Mexico"; "Carlsbad, California"; "Chula Vista, California";
    "Colorado Springs, Colorado"; "Denver, Colorado"; "El Cajon, California";
    "El Paso, Texas"; "Escondido, California"; "Fresno, California";
    "La Mesa, California"; "Las Vegas, Nevada"; "Los Angeles, California";
    "Oceanside, California"; "Phoenix, Arizona"; "Sacramento, California";
    "Salt Lake City, Utah"; "San Diego, California"; "Tucson, Arizona" ].

(** The full names of the states the listed cities lie in. *)
Definition state_names : list string :=
  [ "Arizona"; "California"; "Colorado"; "Nevada"; "New Mexico"; "Texas"; "Utah" ].

(** A name of the form ["City, State"]: a non-empty city, a comma and a
    blank, and the full name of a state. *)
Definition city_state (s : string) : Prop :=
  ∃ city state, city ≠ "" ∧ state ∈ state_names ∧ s = city +:+ ", " +:+ state.

(** The listed locations split at the comma. *)
Definition listed_cities : list (string * string) :=
  [ ("Albuquerque", "New Mexico"); ("Carlsbad", "California");
    ("Chula Vista", "California"); ("Colorado Springs", "Colorado");
    ("Denver", "Colorado"); ("El Cajon", "California"); ("El Paso", "Texas");
    ("Escondido", "California"); ("Fresno", "California"); ("La Mesa", "California");
    ("Las Vegas", "Nevada"); ("Los Angeles", "California");
    ("Oceanside", "California"); ("Phoenix", "Arizona"); ("Sacramento", "California");
    ("Salt Lake City", "Utah"); ("San Diego", "California"); ("Tucson", "Arizona") ].

(** The store [st'] keeps what [st] holds: every reference of [st] is still
    in the list, and every dictionary of [st] is still there with the same
    id, location, body and timestamp. *)
Definition keeps (st st' : State) : Prop :=
  (∀ r, r ∈ reviews st → r ∈ reviews st') ∧
  (∀ r rv, heap st !! r = Some rv →
     ∃ rv', heap st' !! r = Some rv' ∧ same_fields rv rv').

(** The values a request gives a parameter: those of the fields of that
    name, blank ones left out, in order. *)
Definition values_of (key : string) (qs : fields) : list string :=
  snd <$> filter (λ f, f.1 = key ∧ f.2 ≠ "") qs.

(** The request without the fields of one name. *)
Definition without (key : string) (qs : fields) : fields :=
  filter (λ f, f.1 ≠ key) qs.

(** ** A sample scorer and store for the examples

    The handlers are modelled for every scorer.  The scorer of the examples
    rates one body negative, one positive and every other body neutral; its
    numbers are not VADER's, and what the examples show depends on the order
    of the compound scores only. *)

Definition sample_scores (body : string) : scores :=
  if decide (body = "Terrible service, cold food") then
    {| neg := 508; neu := 492; pos := 0; compound := (-4767)%Z |}
  else if decide (body = "Amazing meal, wonderful staff") then
    {| neg := 0; neu := 230; pos := 770; compound := 8225%Z |}
  else {| neg := 0; neu := 1000; pos := 0; compound := 0%Z |}.

Definition sample_state : State :=
  {| heap :=
       <[0 := {| ReviewId := "id-0"; Location := "Denver, Colorado";
                 Timestamp := "2021-10-25 09:05:59";
                 ReviewBody := "Terrible service, cold food"; sentiment := None |}]>
       (<[1 := {| ReviewId := "id-1"; Location := "Phoenix, Arizona";
                  Timestamp := "2022-01-02 18:30:00";
                  ReviewBody := "Amazing meal, wonderful staff"; sentiment := None |}]> ∅);
     reviews := [0; 1] |}.

(** A store with a record stamped at 00:00:00 and one stamped later on the
    same day. *)
Definition midnight_state : State :=
  {| heap :=
       <[0 := {| ReviewId := "id-0"; Location := "Denver, Colorado";
                 Timestamp := "2021-10-25 00:00:00";
                 ReviewBody := "Terrible service, cold food"; sentiment := None |}]>
       (<[1 := {| ReviewId := "id-1"; Location := "Denver, Colorado";
                  Timestamp := "2021-10-25 00:00:01";
                  ReviewBody := "Amazing meal, wonderful staff"; sentiment := None |}]> ∅);
     reviews := [0; 1] |}.

(** A store with two records of equal compound score under
    [sample_scores], the second and the fourth, and one of a greater score
    between them. *)
Definition tied_state : State :=
  {| heap :=
       <[0 := {| ReviewId := "id-0"; Location := "Denver, Colorado";
                 Timestamp := "2021-10-25 09:05:59";
                 ReviewBody := "Terrible service, cold food"; sentiment := None |}]>
       (<[1 := {| ReviewId := "id-1"; Location := "Denver, Colorado";
                  Timestamp := "2021-11-02 18:30:00";
                  ReviewBody := "We had dinner"; sentiment := None |}]>
       (<[2 := {| ReviewId := "id-2"; Location := "Phoenix, Arizona";
                  Timestamp := "2021-11-03 12:00:00";
                  ReviewBody := "Amazing meal, wonderful staff"; sentiment := None |}]>
       (<[3 := {| ReviewId := "id-3"; Location := "Denver, Colorado";
                  Timestamp := "2021-11-04 20:15:00";
                  ReviewBody := "It was a meal"; sentiment := None |}]> ∅)));
     reviews := [0; 1; 2; 3] |}.

(** A store whose record is stamped in the ISO format, with a [T] between
    the date and the time. *)
Definition iso_state : State :=
  {| heap :=
       <[0 := {| ReviewId := "id-0"; Location := "Denver, Colorado";
                 Timestamp := "2021-10-25T09:05:59";
                 ReviewBody := "Terrible service, cold food"; sentiment := None |}]> ∅;
     reviews := [0] |}.

(** ** Sequences of requests *)

(** The outcomes of a sequence of requests, in order. *)
Fixpoint outcomes (polarity_scores : string → scores) (reqs : list request)
    (st : State) : list outcome :=
  match reqs with
  | [] => []
  | req :: reqs =>
      (call polarity_scores req st).1
        :: outcomes polarity_scores reqs (call polarity_scores req st).2
  end.

(** The outcome is a 201 response. *)
Definition is_created (o : outcome) : bool :=
  match o with Returned (Created201 _) => true | _ => false end.

(** The outcome is a 200 or a 201 response. *)
Definition is_success (o : outcome) : bool :=
  match o with Returned (Ok200 _) | Returned (Created201 _) => true | _ => false end.

(** The UUIDs a sequence of requests draws, one for each [POST]. *)
Definition uuids (reqs : list request) : list string :=
  omap (λ req, match req with POST _ uuid4 _ => Some uuid4 | _ => None end) reqs.

(** The clock reading of a [POST] is a date the clock can give: valid, with
    a year of four digits. *)
Definition clock_ok (req : request) : Prop :=
  match req with
  | POST _ _ now =>
      Datetime.valid now = true ∧ (1000 ≤ Datetime.year now ≤ Datetime.MAXYEAR)%nat
  | _ => True
  end.

(** A record as a submission admits it: an allowed location and a body
    that is not empty. *)
Definition admissible (rv : Review) : Prop :=
  Location rv ∈ allowed_locations ∧ ReviewBody rv ≠ "".

(** The date of a datetime, and its time of day being midnight. *)
Definition same_day (a b : Datetime.datetime) : Prop :=
  Datetime.year a = Datetime.year b ∧ Datetime.month a = Datetime.month b ∧
  Datetime.day a = Datetime.day b.
Definition at_midnight (t : Datetime.datetime) : Prop :=
  Datetime.hour t = 0 ∧ Datetime.minute t = 0 ∧ Datetime.second t = 0.

(** * Properties *)

Example strptime_date_ex1 :
  Datetime.strptime_date "2021-03-09" = Some (Datetime.mk 2021 3 9 0 0 0).
Proof. reflexivity. Qed.
Example strptime_date_ex2 : Datetime.strptime_date "2021-3-9" = Some (Datetime.mk 2021 3 9 0 0 0).
Proof. reflexivity. Qed.
Example strptime_date_ex3 : Datetime.strptime_date "2021-02-30" = None.
Proof. reflexivity. Qed.
Example strptime_date_ex4 : Datetime.strptime_date "2021-03-091" = None.
Proof. reflexivity. Qed.
Example strptime_datetime_ex1 :
  Datetime.strptime_datetime "2021-10-25 09:05:59" = Some (Datetime.mk 2021 10 25 9 5 59).
Proof. reflexivity. Qed.
Example strptime_datetime_ex2 : Datetime.strptime_datetime "2021-10-25 24:00:00" = None.
Proof. reflexivity. Qed.
Example strftime_ex1 :
  Datetime.strftime (Datetime.mk 2021 10 25 9 5 59) = "2021-10-25 09:05:59".
Proof. reflexivity. Qed.

(** ** The stable descending sort *)

Section Sorting.
Context (key : ref → Z).

Lemma insert_desc_perm x l : insert_desc key x l ≡ₚ x :: l.
Proof.
  induction l as [|y l IH]; simpl; [done|].
  case_bool_decide; [|done].
  rewrite IH. apply Permutation_swap.
Qed.

Lemma sort_desc_perm l : sort_desc key l ≡ₚ l.
Proof.
  induction l as [|x l IH]; simpl; [done|].
  by rewrite insert_desc_perm, IH.
Qed.

Lemma sort_desc_elem_of l r : r ∈ sort_desc key l ↔ r ∈ l.
Proof. by rewrite sort_desc_perm. Qed.

Lemma sort_desc_length l : length (sort_desc key l) = length l.
Proof. by rewrite sort_desc_perm. Qed.

Lemma insert_desc_sorted x l :
  StronglySorted (desc key) l → StronglySorted (desc key) (insert_desc key x l).
Proof.
  induction 1 as [|y l Hl IH Hy]; simpl.
  - repeat constructor.
  - case_bool_decide as Hlt.
    + constructor; [done|].
      rewrite insert_desc_perm. constructor; [unfold desc; lia | done].
    + constructor; [by constructor|].
      constructor; [unfold desc; lia|].
      eapply Forall_impl; [done|]. unfold desc. intros; simpl in *; lia.
Qed.

Lemma sort_desc_sorted l : StronglySorted (desc key) (sort_desc key l).
Proof.
  induction l; simpl; [constructor | by apply insert_desc_sorted].
Qed.

(** Stability: the elements of one key come out in the order they went in. *)
Lemma insert_desc_filter k x l :
  StronglySorted (desc key) l →
  filter (λ r, key r = k) (insert_desc key x l) = filter (λ r, key r = k) (x :: l).
Proof.
  induction 1 as [|y l Hl IH Hy]; simpl; [done|].
  case_bool_decide as Hlt; [|done].
  rewrite (filter_cons _ y), IH, !filter_cons.
  repeat case_decide; try done; lia.
Qed.

Lemma sort_desc_stable k l :
  filter (λ r, key r = k) (sort_desc key l) = filter (λ r, key r = k) l.
Proof.
  induction l as [|x l IH]; simpl; [done|].
  rewrite insert_desc_filter by apply sort_desc_sorted.
  by rewrite !filter_cons, IH.
Qed.

End Sorting.

(** ** The heap under the scoring loop *)

Section Heap.
Context (sc : string → scores).

Lemma set_sentiment_idemp rv :
  set_sentiment sc (set_sentiment sc rv) = set_sentiment sc rv.
Proof. done. Qed.

Lemma annotate_cons r l h :
  annotate sc (r :: l) h = annotate sc l (alter (set_sentiment sc) r h).
Proof. done. Qed.

Lemma annotate_lookup l h r :
  annotate sc l h !! r =
    if decide (r ∈ l) then set_sentiment sc <$> h !! r else h !! r.
Proof.
  revert h. induction l as [|a l IH]; intros h.
  - by rewrite decide_False by apply not_elem_of_nil.
  - rewrite annotate_cons, IH. destruct (decide (a = r)) as [->|Hne].
    + rewrite lookup_alter_eq, (decide_True (P := r ∈ r :: l)) by left.
      case_decide; [|done]. by destruct (h !! r).
    + rewrite lookup_alter_ne by done.
      destruct (decide (r ∈ l)).
      * by rewrite decide_True by (by right).
      * rewrite decide_False; [done|]. rewrite elem_of_cons. by intros [?|?].
Qed.

Lemma annotate_dom l h : dom (annotate sc l h) = dom h.
Proof.
  apply set_eq. intros r. rewrite !elem_of_dom, annotate_lookup.
  case_decide; [|done]. by rewrite fmap_is_Some.
Qed.

Lemma annotate_lookup_total l h r :
  r ∈ l → is_Some (h !! r) → annotate sc l h !!! r = set_sentiment sc (h !!! r).
Proof.
  intros Hr [rv Hrv]. apply lookup_total_correct.
  by rewrite annotate_lookup, decide_True, Hrv, (lookup_total_correct _ _ _ Hrv).
Qed.

End Heap.

(** ** The filters of [handle_get] *)

Lemma strptime_date_midnight s d :
  Datetime.strptime_date s = Some d → midnight d = d.
Proof.
  unfold Datetime.strptime_date, Datetime.make.
  destruct (Datetime.ymd s) as [[[[y m] dd] rest]|]; simpl; [|done].
  case_decide; [|done]. case (Datetime.valid _); [|done].
  by intros [= <-].
Qed.

Lemma filter_all {A} (P : A → Prop) `{!∀ x, Decision (P x)} (l : list A) :
  (∀ x, x ∈ l → P x) → filter P l = l.
Proof.
  induction l as [|x l IH]; intros Hall; [done|].
  rewrite filter_cons, decide_True by (apply Hall; left).
  f_equal. apply IH. intros y Hy. apply Hall. by right.
Qed.

Lemma by_timestamp_filter h keep l :
  (∀ r, r ∈ l → is_Some (Datetime.strptime_datetime (Timestamp (h !!! r)))) →
  by_timestamp h keep l =
    Some (filter (λ r, from_option keep false
                    (Datetime.strptime_datetime (Timestamp (h !!! r)))) l).
Proof.
  induction l as [|r l IH]; intros H; [done|]. simpl.
  destruct (H r) as [t Ht]; [left|]. rewrite Ht. simpl.
  rewrite IH by (intros; apply H; by right). simpl.
  rewrite filter_cons, Ht. simpl. by destruct (keep t).
Qed.

Lemma by_timestamp_None h keep l :
  by_timestamp h keep l = None →
  ∃ r, r ∈ l ∧ Datetime.strptime_datetime (Timestamp (h !!! r)) = None.
Proof.
  induction l as [|r l IH]; [done|]. simpl.
  destruct (Datetime.strptime_datetime _) as [t|] eqn:Ht; simpl.
  - destruct (by_timestamp h keep l); [done|]. intros _.
    destruct IH as (r' & ? & ?); [done|]. exists r'. split; [by right | done].
  - intros _. exists r. split; [left | done].
Qed.

Lemma by_timestamp_sublist h keep l l' :
  by_timestamp h keep l = Some l' → l' `sublist_of` l.
Proof.
  revert l'. induction l as [|r l IH]; intros l'; simpl.
  - by intros [= <-].
  - destruct (Datetime.strptime_datetime _) as [t|]; [|done]. simpl.
    destruct (by_timestamp h keep l) as [rest|]; [|done]. simpl.
    intros [= <-]. destruct (keep t).
    + by apply sublist_skip, IH.
    + by apply sublist_cons, IH.
Qed.

(** ** Writing and reading timestamps *)

Module DatetimeFacts.
Import Datetime.

Lemma digit_char_digit n : digit (digit_char n) = true.
Proof.
  unfold digit_char. assert (n mod 10 < 10) as H by (apply Nat.mod_upper_bound; lia).
  revert H. generalize (n mod 10). intros m Hm.
  do 10 (destruct m as [|m]; [reflexivity|]). lia.
Qed.

Lemma digit_char_value n : nat_of_ascii (digit_char n) - 48 = n mod 10.
Proof.
  unfold digit_char. assert (n mod 10 < 10) as H by (apply Nat.mod_upper_bound; lia).
  revert H. generalize (n mod 10). intros m Hm.
  do 10 (destruct m as [|m]; [reflexivity|]). lia.
Qed.

Lemma digit_char_not_space n : space (digit_char n) = false.
Proof.
  unfold digit_char. assert (n mod 10 < 10) as H by (apply Nat.mod_upper_bound; lia).
  revert H. generalize (n mod 10). intros m Hm.
  do 10 (destruct m as [|m]; [reflexivity|]). lia.
Qed.

Lemma group_Y y k : (y ≤ MAXYEAR)%nat → group re_Y (four y k) = Some (y, k).
Proof.
  intros Hy. unfold group, re_Y, four, two. cbn [match_alt match_seq].
  rewrite !digit_char_digit. cbn [mbind option_bind]. unfold int. cbn [int_acc].
  rewrite !digit_char_digit, !digit_char_value. do 2 f_equal.
  unfold MAXYEAR in Hy.
  change 1000 with (10 * 10 * 10). change 100 with (10 * 10).
  rewrite <-!Nat.Div0.div_div.
  pose proof (Nat.div_mod_eq y 10). pose proof (Nat.mod_upper_bound y 10).
  pose proof (Nat.div_mod_eq (y / 10) 10). pose proof (Nat.mod_upper_bound (y / 10) 10).
  pose proof (Nat.div_mod_eq (y / 10 / 10) 10).
  pose proof (Nat.mod_upper_bound (y / 10 / 10) 10).
  pose proof (Nat.div_mod_eq (y / 10 / 10 / 10) 10).
  pose proof (Nat.mod_upper_bound (y / 10 / 10 / 10) 10).
  lia.
Qed.

(** A field written with two digits is read back by its directive. *)
Lemma group_m n k : (1 ≤ n ≤ 12)%nat → group re_m (two n k) = Some (n, k).
Proof.
  intros [H1 H2]. destruct n as [|n]; [lia|].
  do 12 (destruct n as [|n]; [reflexivity|]). lia.
Qed.

Lemma group_d n k : (1 ≤ n ≤ 31)%nat → group re_d (two n k) = Some (n, k).
Proof.
  intros [H1 H2]. destruct n as [|n]; [lia|].
  do 31 (destruct n as [|n]; [reflexivity|]). lia.
Qed.

Lemma group_H n k : (n ≤ 23)%nat → group re_H (two n k) = Some (n, k).
Proof. intros H. do 24 (destruct n as [|n]; [reflexivity|]). lia. Qed.

Lemma group_M n k : (n ≤ 59)%nat → group re_M (two n k) = Some (n, k).
Proof. intros H. do 60 (destruct n as [|n]; [reflexivity|]). lia. Qed.

Lemma group_S n k : (n ≤ 59)%nat → group re_S (two n k) = Some (n, k).
Proof. intros H. do 60 (destruct n as [|n]; [reflexivity|]). lia. Qed.

Lemma spaces1_two n k : spaces1 (String " " (two n k)) = Some (two n k).
Proof.
  unfold spaces1, two. cbn [skip_spaces]. by rewrite digit_char_not_space.
Qed.

Lemma days_in_month_bound y m : (days_in_month y m ≤ 31)%nat.
Proof.
  unfold days_in_month. destruct (is_leap y);
    do 12 (destruct m as [|m]; [lia|]); lia.
Qed.

Lemma valid_bounds d :
  valid d = true →
  (1 ≤ year d ∧ 1 ≤ month d ≤ 12 ∧ 1 ≤ day d ≤ 31 ∧
   hour d ≤ 23 ∧ minute d ≤ 59 ∧ second d ≤ 59)%nat.
Proof.
  unfold valid. rewrite !andb_true_iff, !Nat.leb_le.
  pose proof (days_in_month_bound (year d) (month d)). lia.
Qed.

Lemma sep_head a k : sep a (String a k) = Some k.
Proof. unfold sep, lit. cbn [match_seq]. by rewrite Ascii.eqb_refl. Qed.

(** What [strftime] writes for a valid datetime, [strptime] reads back. *)
Lemma strptime_strftime d :
  valid d = true → (year d ≤ MAXYEAR)%nat →
  strptime_datetime (strftime d) = Some d.
Proof.
  intros Hv Hy. pose proof (valid_bounds d Hv) as (? & ? & ? & ? & ? & ?).
  unfold strptime_datetime, strftime, ymd.
  rewrite group_Y by done. cbn [mbind option_bind]. rewrite sep_head.
  cbn [mbind option_bind]. rewrite group_m by done.
  cbn [mbind option_bind]. rewrite sep_head.
  cbn [mbind option_bind]. rewrite group_d by done.
  cbn [mbind option_bind]. rewrite spaces1_two.
  cbn [mbind option_bind]. rewrite group_H by done.
  cbn [mbind option_bind]. rewrite sep_head.
  cbn [mbind option_bind]. rewrite group_M by done.
  cbn [mbind option_bind]. rewrite sep_head.
  cbn [mbind option_bind]. rewrite group_S by done.
  cbn [mbind option_bind]. rewrite decide_True by done.
  unfold make. cbv zeta. destruct d as [y m dd h mi s]. cbn in Hv |- *.
  by rewrite Hv.
Qed.

Lemma strftime_length d : String.length (strftime d) = 19.
Proof. reflexivity. Qed.

End DatetimeFacts.

(** ** The allow-list *)

Lemma allowed_locations_eq : allowed_locations = list_to_set listed_locations.
Proof. reflexivity. Qed.

Lemma allowed_locations_listed s : s ∈ allowed_locations ↔ s ∈ listed_locations.
Proof. by rewrite allowed_locations_eq, elem_of_list_to_set. Qed.

Lemma listed_locations_NoDup : NoDup listed_locations.
Proof. apply (bool_decide_unpack _). by vm_compute. Qed.

Lemma allowed_locations_size : size allowed_locations = 18.
Proof.
  by rewrite allowed_locations_eq, size_list_to_set by apply listed_locations_NoDup.
Qed.

Lemma listed_locations_format : Forall city_state listed_locations.
Proof.
  assert (listed_locations = (λ p, p.1 +:+ ", " +:+ p.2) <$> listed_cities)
    as -> by reflexivity.
  apply Forall_fmap.
  assert (Forall (λ p : string * string, p.1 ≠ "" ∧ p.2 ∈ state_names) listed_cities)
    as Hcs by (apply (bool_decide_unpack _); by vm_compute).
  eapply Forall_impl; [exact Hcs|].
  intros [city state] [? ?]. by exists city, state.
Qed.

(** The proofs below reason about the allow-list and the parsers through
    their lemmas only; they are unfolded by evaluation alone. *)
#[local] Opaque allowed_locations Datetime.strptime_date Datetime.strptime_datetime.

(** Case analysis along the branches of [select]. *)
Ltac flow_red :=
  unfold location_step, start_step, end_step, mbind, flow_bind, parsed;
  cbn [contents]; lazy beta iota.

Ltac select_cases :=
  flow_red;
  repeat (
    match goal with
    | |- context [truthy ?o] => destruct (truthy o) eqn:?
    | |- context [decide (?x ∈ allowed_locations)] =>
        destruct (decide (x ∈ allowed_locations))
    | |- context [Datetime.strptime_date ?s] =>
        destruct (Datetime.strptime_date s) eqn:?
    | |- context [by_timestamp ?h ?k ?l] => destruct (by_timestamp h k l) eqn:?
    end; flow_red).

(** Close the branches whose premise equates two different outcomes. *)
Ltac flow_discr := try (let H := fresh in intros H; discriminate H).

(** The list [select] goes on with is the store list exactly when no filter
    is given. *)
Lemma select_StoreList location start_date end_date st :
  select location start_date end_date st = Next StoreList ↔
  truthy location = None ∧ truthy start_date = None ∧ truthy end_date = None.
Proof.
  unfold select. flow_red. split.
  - select_cases; flow_discr. by intros _.
  - by intros (-> & -> & ->).
Qed.

Lemma select_sublist location start_date end_date st v :
  select location start_date end_date st = Next v →
  contents st v `sublist_of` reviews st.
Proof.
  assert (∀ loc, by_location (heap st) loc (reviews st) `sublist_of` reviews st)
    as Hloc by (intros; apply sublist_filter).
  unfold select. flow_red. select_cases; flow_discr; intros [= <-]; cbn [contents];
    repeat match goal with
    | H : by_timestamp _ _ _ = Some _ |- _ => apply by_timestamp_sublist in H
    end;
    repeat first [reflexivity | apply Hloc | assumption | (etrans; [eassumption|])].
Qed.

Lemma select_invalid_location location start_date end_date st loc :
  truthy location = Some loc → loc ∉ allowed_locations →
  select location start_date end_date st = Return (BadRequest400 "Invalid location").
Proof.
  intros Hloc Hno. unfold select. flow_red. rewrite Hloc. flow_red.
  by rewrite decide_False.
Qed.

Lemma select_Return location start_date end_date st resp :
  select location start_date end_date st = Return resp →
  resp = BadRequest400 "Invalid location" ∧
  ∃ loc, truthy location = Some loc ∧ loc ∉ allowed_locations.
Proof.
  unfold select. flow_red. select_cases; flow_discr;
    intros [= <-]; (split; [reflexivity | eexists; split; [reflexivity | assumption]]).
Qed.

Lemma select_bad_start location start_date end_date st s :
  location_wf location →
  truthy start_date = Some s → Datetime.strptime_date s = None →
  select location start_date end_date st = Raise ValueError.
Proof.
  intros Hloc Hs Hbad. unfold select. flow_red. rewrite Hs.
  destruct (truthy location) as [loc|] eqn:Hl; flow_red.
  - rewrite decide_True by by apply Hloc. by rewrite Hbad.
  - by rewrite Hbad.
Qed.

Lemma select_bad_end location start_date end_date st s :
  location_wf location →
  truthy end_date = Some s → Datetime.strptime_date s = None →
  select location start_date end_date st = Raise ValueError.
Proof.
  intros Hloc Hs Hbad. unfold select. flow_red. rewrite Hs.
  destruct (truthy location) as [loc|] eqn:Hl; flow_red.
  - rewrite decide_True by by apply Hloc.
    select_cases; try reflexivity; congruence.
  - select_cases; try reflexivity; congruence.
Qed.

(** *** The filters against the specification's wording *)

Lemma filter_location_given (h : gmap ref Review) location loc (l : list ref) :
  truthy location = Some loc →
  by_location h loc l = filter (λ r, location_matches location (h !!! r)) l.
Proof.
  intros Hl. unfold by_location, location_matches. rewrite Hl.
  apply list_filter_iff. intros r. by rewrite bool_decide_spec.
Qed.

Lemma filter_location_absent (h : gmap ref Review) location (l : list ref) :
  truthy location = None →
  filter (λ r, location_matches location (h !!! r)) l = l.
Proof.
  intros Hl. apply filter_all. intros r _. unfold location_matches. by rewrite Hl.
Qed.

Lemma filter_start_given (h : gmap ref Review) start_date s d (l : list ref) :
  truthy start_date = Some s → Datetime.strptime_date s = Some d →
  (∀ r, r ∈ l → is_Some (Datetime.strptime_datetime (Timestamp (h !!! r)))) →
  by_timestamp h (λ t, Datetime.ge t d) l =
    Some (filter (λ r, not_before start_date (h !!! r)) l).
Proof.
  intros Hs Hd Hts. rewrite by_timestamp_filter by exact Hts. f_equal.
  apply list_filter_iff. intros r. unfold not_before.
  rewrite Hs, Hd, (strptime_date_midnight _ _ Hd).
  by destruct (Datetime.strptime_datetime (Timestamp (h !!! r))).
Qed.

Lemma filter_start_absent (h : gmap ref Review) start_date (l : list ref) :
  truthy start_date = None →
  filter (λ r, not_before start_date (h !!! r)) l = l.
Proof.
  intros Hs. apply filter_all. intros r _. unfold not_before. by rewrite Hs.
Qed.

Lemma filter_end_given (h : gmap ref Review) end_date s d (l : list ref) :
  truthy end_date = Some s → Datetime.strptime_date s = Some d →
  (∀ r, r ∈ l → is_Some (Datetime.strptime_datetime (Timestamp (h !!! r)))) →
  by_timestamp h (λ t, Datetime.le t d) l =
    Some (filter (λ r, not_after end_date (h !!! r)) l).
Proof.
  intros Hs Hd Hts. rewrite by_timestamp_filter by exact Hts. f_equal.
  apply list_filter_iff. intros r. unfold not_after.
  rewrite Hs, Hd, (strptime_date_midnight _ _ Hd).
  by destruct (Datetime.strptime_datetime (Timestamp (h !!! r))).
Qed.

Lemma filter_end_absent (h : gmap ref Review) end_date (l : list ref) :
  truthy end_date = None →
  filter (λ r, not_after end_date (h !!! r)) l = l.
Proof.
  intros Hs. apply filter_all. intros r _. unfold not_after. by rewrite Hs.
Qed.

Lemma location_step_ok location st :
  location_wf location →
  ∃ v, location_step location st StoreList = Next v ∧
    contents st v =
      filter (λ r, location_matches location (heap st !!! r)) (reviews st).
Proof.
  intros Hl. unfold location_step.
  destruct (truthy location) as [loc|] eqn:El.
  - rewrite decide_True by by apply Hl. eexists. split; [reflexivity|].
    cbn [contents]. by apply filter_location_given.
  - exists StoreList. split; [reflexivity|]. cbn [contents].
    symmetry. by apply filter_location_absent.
Qed.

Lemma start_step_ok start_date st v :
  date_wf start_date →
  (∀ r, r ∈ contents st v →
     is_Some (Datetime.strptime_datetime (Timestamp (heap st !!! r)))) →
  ∃ v', start_step start_date st v = Next v' ∧
    contents st v' =
      filter (λ r, not_before start_date (heap st !!! r)) (contents st v).
Proof.
  intros Hs Hts. unfold start_step.
  destruct (truthy start_date) as [sd|] eqn:Es.
  - destruct (Hs sd Es) as [d Hd]. rewrite Hd. flow_red.
    rewrite (filter_start_given _ start_date sd d) by assumption.
    eexists. split; reflexivity.
  - exists v. split; [reflexivity|]. symmetry. by apply filter_start_absent.
Qed.

Lemma end_step_ok end_date st v :
  date_wf end_date →
  (∀ r, r ∈ contents st v →
     is_Some (Datetime.strptime_datetime (Timestamp (heap st !!! r)))) →
  ∃ v', end_step end_date st v = Next v' ∧
    contents st v' =
      filter (λ r, not_after end_date (heap st !!! r)) (contents st v).
Proof.
  intros Hs Hts. unfold end_step.
  destruct (truthy end_date) as [ed|] eqn:Es.
  - destruct (Hs ed Es) as [d Hd]. rewrite Hd. flow_red.
    rewrite (filter_end_given _ end_date ed d) by assumption.
    eexists. split; reflexivity.
  - exists v. split; [reflexivity|]. symmetry. by apply filter_end_absent.
Qed.

(** With well-formed filters and timestamps [select] goes on, with the
    store filtered by location, then start date, then end date. *)
Lemma select_filters location start_date end_date st :
  location_wf location → date_wf start_date → date_wf end_date →
  timestamps_wf st →
  ∃ v, select location start_date end_date st = Next v ∧
    contents st v =
      filter (λ r, not_after end_date (heap st !!! r))
        (filter (λ r, not_before start_date (heap st !!! r))
          (filter (λ r, location_matches location (heap st !!! r)) (reviews st))).
Proof.
  intros Hl Hs He Hts. unfold select.
  destruct (location_step_ok location st Hl) as (v1 & -> & H1).
  destruct (start_step_ok start_date st v1 Hs) as (v2 & E2 & H2).
  { rewrite H1. intros r [_ Hr]%list_elem_of_filter. by apply Hts. }
  destruct (end_step_ok end_date st v2 He) as (v3 & E3 & H3).
  { rewrite H2, H1. intros r [_ [_ Hr]%list_elem_of_filter]%list_elem_of_filter.
    by apply Hts. }
  exists v3. split.
  - unfold mbind, flow_bind. by rewrite E2.
  - by rewrite H3, H2, H1.
Qed.

(** ** Request parameters *)

Lemma values_of_cons key name value qs :
  values_of key ((name, value) :: qs) =
    if decide (name = key ∧ value ≠ "") then value :: values_of key qs
    else values_of key qs.
Proof.
  unfold values_of.
  rewrite (filter_cons (λ f : string * string, f.1 = key ∧ f.2 ≠ "")).
  cbn [fst snd]. by case_decide.
Qed.

Lemma parse_qs_add_lookup m name value key :
  parse_qs_add m (name, value) !! key =
    if decide (name = key ∧ value ≠ "") then Some (default [] (m !! key) ++ [value])
    else m !! key.
Proof.
  unfold parse_qs_add. destruct (decide (value = "")) as [->|Hv].
  { rewrite decide_False; [done|]. by intros [_ ?]. }
  destruct (decide (name = key)) as [->|Hk].
  - rewrite decide_True by done.
    destruct (m !! key); by rewrite lookup_insert_eq.
  - rewrite decide_False by (by intros [? _]).
    destruct (m !! name); by rewrite lookup_insert_ne.
Qed.

Lemma parse_qs_fold key (qs : fields) (m : gmap string (list string)) :
  foldl parse_qs_add m qs !! key =
    match values_of key qs with
    | [] => m !! key
    | vs => Some (default [] (m !! key) ++ vs)
    end.
Proof.
  revert m. induction qs as [|[name value] qs IH]; intros m; [done|].
  cbn [foldl]. rewrite IH, values_of_cons, parse_qs_add_lookup.
  case_decide.
  - destruct (values_of key qs); [done|]. simpl. by rewrite <-app_assoc.
  - done.
Qed.

(** A parameter read from the parsed request is the first non-blank value
    given to it. *)
Lemma get0_parse_qs key qs : get0 (parse_qs qs) key = head (values_of key qs).
Proof.
  unfold get0, parse_qs. rewrite parse_qs_fold, lookup_empty.
  by destruct (values_of key qs).
Qed.

Lemma values_of_nonblank key qs v : v ∈ values_of key qs → v ≠ "".
Proof.
  unfold values_of. intros ([k v'] & -> & [[_ ?] _]%list_elem_of_filter)%list_elem_of_fmap.
  done.
Qed.

Lemma get0_nonblank key qs v : get0 (parse_qs qs) key = Some v → v ≠ "".
Proof.
  rewrite get0_parse_qs. intros Hv. apply (values_of_nonblank key qs).
  destruct (values_of key qs); [done|]. injection Hv as ->. left.
Qed.

Lemma get0_truthy key qs : truthy (get0 (parse_qs qs) key) = get0 (parse_qs qs) key.
Proof.
  destruct (get0 (parse_qs qs) key) as [v|] eqn:E; [|done].
  apply get0_nonblank in E. by destruct v.
Qed.

Lemma values_of_blank key qs :
  (∀ v, (key, v) ∈ qs → v = "") → values_of key qs = [].
Proof.
  intros Hb. unfold values_of.
  destruct (filter _ qs) as [|[k v] l] eqn:E; [done|].
  assert ((k, v) ∈ filter (λ f, f.1 = key ∧ f.2 ≠ "") qs) as Hin by (rewrite E; left).
  apply list_elem_of_filter in Hin as [[Hk Hv] Hin]. cbn in Hk, Hv. subst k.
  by apply Hb in Hin.
Qed.

Lemma without_cons key name value qs :
  without key ((name, value) :: qs) =
    if decide (name ≠ key) then (name, value) :: without key qs else without key qs.
Proof.
  unfold without. by rewrite (filter_cons (λ f : string * string, f.1 ≠ key)).
Qed.

Lemma values_of_without key key' qs :
  key ≠ key' → values_of key (without key' qs) = values_of key qs.
Proof.
  intros Hne. induction qs as [|[name value] qs IH]; [done|].
  rewrite without_cons. case_decide as Hn.
  - by rewrite !values_of_cons, IH.
  - rewrite values_of_cons, IH, decide_False; [done|].
    intros [-> _]. tauto.
Qed.

Lemma values_of_without_eq key qs : values_of key (without key qs) = [].
Proof.
  apply values_of_blank. intros v [Hk _]%list_elem_of_filter. done.
Qed.

Lemma truthy_Some s : s ≠ "" → truthy (Some s) = Some s.
Proof. by destruct s. Qed.

Lemma truthy_Some_inv o s : truthy o = Some s → o = Some s ∧ s ≠ "".
Proof. destruct o as [[|c s']|]; intros H; try discriminate H. by injection H as <-. Qed.

Lemma truthy_None o : truthy o = None ↔ o = None ∨ o = Some "".
Proof.
  destruct o as [[|c s']|]; cbn; split; intros H; try done; try (by left); try (by right).
  by destruct H as [H|H].
Qed.

Lemma get0_cons_eq key value qs :
  get0 (parse_qs ((key, value) :: qs)) key =
    if decide (value = "") then get0 (parse_qs qs) key else Some value.
Proof.
  rewrite !get0_parse_qs, values_of_cons.
  destruct (decide (value = "")) as [->|Hv].
  - rewrite decide_False; [done|]. by intros [_ ?].
  - by rewrite decide_True.
Qed.

Lemma get0_cons_ne key name value qs :
  name ≠ key → get0 (parse_qs ((name, value) :: qs)) key = get0 (parse_qs qs) key.
Proof.
  intros Hne. rewrite !get0_parse_qs, values_of_cons.
  rewrite decide_False; [done|]. by intros [? _].
Qed.

Lemma get0_nil key : get0 (parse_qs []) key = None.
Proof. by rewrite get0_parse_qs. Qed.

(** ** The query handler *)

Section Query.
Context (sc : string → scores).

Lemma query_Next location start_date end_date st v :
  select location start_date end_date st = Next v →
  query sc location start_date end_date st = respond sc v st.
Proof. intros E. unfold query. by rewrite E. Qed.

Lemma query_Return location start_date end_date st resp :
  select location start_date end_date st = Return resp →
  query sc location start_date end_date st = (Returned resp, st).
Proof. intros E. unfold query. by rewrite E. Qed.

Lemma query_Raise location start_date end_date st e :
  select location start_date end_date st = Raise e →
  query sc location start_date end_date st = (Raised e, st).
Proof. intros E. unfold query. by rewrite E. Qed.

(** The body of a 200 response is a permutation of the records selected,
    each with the sentiment of its body attached, in descending order of
    the compound score. *)
Lemma respond_body v st :
  (∀ r, r ∈ contents st v → is_Some (heap st !! r)) →
  ∃ body, (respond sc v st).1 = Returned (Ok200 body) ∧
    body ≡ₚ (λ r, set_sentiment sc (heap st !!! r)) <$> contents st v ∧
    descending body ∧
    Forall (λ rv, sentiment rv = Some (sc (ReviewBody rv))) body.
Proof.
  intros Hlive. unfold respond. cbn [fst].
  set (l := contents st v). set (h := annotate sc l (heap st)).
  set (key := λ r, compound_of (h !!! r)).
  assert (∀ r, r ∈ l → h !!! r = set_sentiment sc (heap st !!! r)) as Hh.
  { intros r Hr. apply annotate_lookup_total; [done | by apply Hlive]. }
  eexists. split; [reflexivity|]. split; [|split].
  - rewrite (sort_desc_perm key l). apply reflexive_eq, list_fmap_ext.
    intros i r Hr. apply Hh. by eapply list_elem_of_lookup_2.
  - unfold descending. eapply StronglySorted_fmap; [|apply (sort_desc_sorted key)].
    intros x y Hxy. exact Hxy.
  - apply Forall_fmap, Forall_forall. intros r Hr.
    apply sort_desc_elem_of in Hr. cbn. by rewrite (Hh r Hr).
Qed.

Lemma respond_state v st :
  let st' := (respond sc v st).2 in
  heap st' = annotate sc (contents st v) (heap st) ∧
  reviews st' ≡ₚ reviews st ∧
  (v ≠ StoreList → reviews st' = reviews st).
Proof.
  unfold respond. cbn [snd heap reviews]. split; [done|]. destruct v; cbn [contents].
  - split; [apply sort_desc_perm | done].
  - done.
Qed.

End Query.

(** ** The response against the store *)

Section Scored.
Context (sc : string → scores).

Lemma scored_set_sentiment rv : scored sc rv (set_sentiment sc rv).
Proof. by repeat split. Qed.

Lemma filter_ext_elem {A} (P Q : A → Prop) `{!∀ x, Decision (P x)}
    `{!∀ x, Decision (Q x)} (l : list A) :
  (∀ x, x ∈ l → P x ↔ Q x) → filter P l = filter Q l.
Proof.
  induction l as [|x l IH]; intros Hx; [done|].
  rewrite !filter_cons, IH by (intros y Hy; apply Hx; by right).
  destruct (decide (P x)) as [HP|HP], (decide (Q x)) as [HQ|HQ]; try done.
  - destruct HQ. by apply (Hx x); [left|].
  - destruct HP. by apply (Hx x); [left|].
Qed.

(** The body of a 200 response, read against the store: the records of a
    rearrangement of the list selected, each the stored record scored, the
    references of one score in the order the list selected holds them. *)
Lemma respond_scored v st :
  (∀ r, r ∈ contents st v → is_Some (heap st !! r)) →
  ∃ order body, (respond sc v st).1 = Returned (Ok200 body) ∧
    order ≡ₚ contents st v ∧
    Forall2 (λ r rv, scored sc (heap st !!! r) rv) order body ∧
    ∀ k, filter (λ r, score_of sc (heap st !!! r) = k) order =
         filter (λ r, score_of sc (heap st !!! r) = k) (contents st v).
Proof.
  intros Hlive. unfold respond. cbn [fst].
  set (l := contents st v). set (h := annotate sc l (heap st)).
  set (key := λ r, compound_of (h !!! r)).
  assert (∀ r, r ∈ l → h !!! r = set_sentiment sc (heap st !!! r)) as Hh.
  { intros r Hr. apply annotate_lookup_total; [done | by apply Hlive]. }
  assert (∀ r, r ∈ l → key r = score_of sc (heap st !!! r)) as Hkey.
  { intros r Hr. unfold key. by rewrite (Hh r Hr). }
  exists (sort_desc key l). eexists. split; [reflexivity|].
  split; [apply sort_desc_perm|]. split.
  - apply Forall2_fmap_r, Forall_Forall2_diag, Forall_forall. intros r Hr.
    apply sort_desc_elem_of in Hr.
    pose proof (scored_set_sentiment (heap st !!! r)) as Hs.
    rewrite <-(Hh r Hr) in Hs. exact Hs.
  - intros k.
    rewrite <-(filter_ext_elem (λ r, key r = k) _ (sort_desc key l)).
    + rewrite sort_desc_stable. apply filter_ext_elem. intros r Hr. by rewrite (Hkey r Hr).
    + intros r Hr. apply sort_desc_elem_of in Hr. by rewrite (Hkey r Hr).
Qed.

End Scored.

(** ** What a query does to the store *)

(** C1, counterexample: an unfiltered [GET] on a store of two rows loaded
    without sentiment writes a ["sentiment"] entry into the stored
    dictionaries, whatever the scorer, and leaves the store list in another
    order as soon as the scorer rates the second body above the first. *)
Lemma C1_query_changes_store :
  reviews sample_state = [0; 1] ∧
  sentiment <$> heap sample_state !! 0 = Some None ∧
  (∀ sc, sentiment <$> heap (handle_get sc [] sample_state).2 !! 0 =
         Some (Some (sc "Terrible service, cold food"))) ∧
  (∀ sc, (compound (sc "Terrible service, cold food") <
          compound (sc "Amazing meal, wonderful staff"))%Z →
         reviews (handle_get sc [] sample_state).2 = [1; 0]) ∧
  reviews (handle_get sample_scores [] sample_state).2 = [1; 0].
Proof.
  split; [reflexivity|]. split; [reflexivity|]. split; [|split].
  - intros sc. reflexivity.
  - intros sc Hlt. unfold handle_get. rewrite !get0_nil.
    rewrite (query_Next sc None None None sample_state StoreList eq_refl).
    unfold respond. cbn [snd reviews contents].
    cbn [sample_state reviews sort_desc foldr insert_desc].
    by rewrite bool_decide_eq_true_2 by exact Hlt.
  - by vm_compute.
Qed.

(** The effect of a query on the store. *)
Lemma handle_get_effect sc qs st :
  let location := get0 (parse_qs qs) "location" in
  let start_date := get0 (parse_qs qs) "start_date" in
  let end_date := get0 (parse_qs qs) "end_date" in
  let out := (handle_get sc qs st).1 in
  let st' := (handle_get sc qs st).2 in
  reviews st' ≡ₚ reviews st ∧
  (∀ r, heap st' !! r = heap st !! r ∨
        heap st' !! r = set_sentiment sc <$> heap st !! r) ∧
  (∀ body, out = Returned (Ok200 body) →
     ∃ l, l ⊆ reviews st ∧ body = (heap st' !!!.) <$> l ∧
       ∀ r, heap st' !! r =
            if decide (r ∈ l) then set_sentiment sc <$> heap st !! r
            else heap st !! r) ∧
  (is_Some location ∨ is_Some start_date ∨ is_Some end_date →
     reviews st' = reviews st) ∧
  ((∀ body, out ≠ Returned (Ok200 body)) → st' = st).
Proof.
  cbv zeta. unfold handle_get.
  set (location := get0 (parse_qs qs) "location").
  set (start_date := get0 (parse_qs qs) "start_date").
  set (end_date := get0 (parse_qs qs) "end_date").
  destruct (select location start_date end_date st) as [v|resp|e] eqn:E.
  - rewrite (query_Next sc _ _ _ _ _ E). cbv zeta.
    destruct (respond_state sc v st) as (Hh & Hp & Hsame). cbv zeta in Hh, Hsame.
    split; [exact Hp|]. split; [|split; [|split]].
    + intros r. rewrite Hh, annotate_lookup. case_decide; [by right | by left].
    + intros body [= <-].
      exists (sort_desc (λ r, compound_of (annotate sc (contents st v) (heap st) !!! r))
                (contents st v)).
      split; [|split].
      * intros r Hr%sort_desc_elem_of.
        eapply elem_of_sublist; [exact Hr | by eapply select_sublist].
      * reflexivity.
      * intros r. rewrite Hh, annotate_lookup.
        destruct (decide (r ∈ contents st v)) as [Hr|Hr].
        -- rewrite decide_True; [reflexivity|]. by apply sort_desc_elem_of.
        -- rewrite decide_False; [reflexivity|]. by rewrite sort_desc_elem_of.
    + intros Hgiven. apply Hsame. intros ->.
      apply select_StoreList in E as (E1 & E2 & E3).
      unfold location, start_date, end_date in *.
      rewrite get0_truthy in E1, E2, E3. rewrite E1, E2, E3 in Hgiven.
      destruct Hgiven as [[? [=]]|[[? [=]]|[? [=]]]].
    + intros Hno. by destruct (Hno _ eq_refl).
  - rewrite (query_Return sc _ _ _ _ _ E). cbn [fst snd].
    destruct (select_Return _ _ _ _ _ E) as [-> _].
    split; [reflexivity|]. split; [intros r; by left|].
    split; [intros body H; discriminate H|]. split; intros _; reflexivity.
  - rewrite (query_Raise sc _ _ _ _ _ E). cbn [fst snd].
    split; [reflexivity|]. split; [intros r; by left|].
    split; [intros body H; discriminate H|]. split; intros _; reflexivity.
Qed.

(** C1, as amended: after any query the store holds the same references
    (a permutation of the list before), and every dictionary is either
    untouched or differs only by its ["sentiment"] entry, now the score of
    its body; id, location, timestamp and body never change.  The
    dictionaries of a 200 response are stored ones, and they are exactly
    those the sentiment is written into.  A query with a filter keeps the
    order of the store, and a query that does not end in a 200 response
    changes nothing. *)
Theorem C1_query_store_effect sc qs st :
  let location := get0 (parse_qs qs) "location" in
  let start_date := get0 (parse_qs qs) "start_date" in
  let end_date := get0 (parse_qs qs) "end_date" in
  let out := (handle_get sc qs st).1 in
  let st' := (handle_get sc qs st).2 in
  reviews st' ≡ₚ reviews st ∧
  (∀ r, heap st' !! r = heap st !! r ∨
        heap st' !! r = set_sentiment sc <$> heap st !! r) ∧
  (∀ body, out = Returned (Ok200 body) →
     ∃ l, l ⊆ reviews st ∧ body = (heap st' !!!.) <$> l ∧
       ∀ r, heap st' !! r =
            if decide (r ∈ l) then set_sentiment sc <$> heap st !! r
            else heap st !! r) ∧
  (is_Some location ∨ is_Some start_date ∨ is_Some end_date →
     reviews st' = reviews st) ∧
  ((∀ body, out ≠ Returned (Ok200 body)) → st' = st).
Proof. apply handle_get_effect. Qed.

(** ** Unfiltered and filtered queries *)

Lemma sample_state_wf : wf sample_state.
Proof.
  intros r Hr. cbn in Hr.
  apply elem_of_cons in Hr as [->|Hr]; [by eexists|].
  apply list_elem_of_singleton in Hr as ->. by eexists.
Qed.

Lemma tied_state_wf : wf tied_state.
Proof.
  intros r Hr. cbn in Hr.
  apply elem_of_cons in Hr as [->|Hr]; [by eexists|].
  apply elem_of_cons in Hr as [->|Hr]; [by eexists|].
  apply elem_of_cons in Hr as [->|Hr]; [by eexists|].
  apply list_elem_of_singleton in Hr as ->. by eexists.
Qed.

(** A query with no filter answers 200 with every record of the store,
    each carrying the sentiment the scorer gives its body, in descending
    order of [sentiment.compound]. *)
Lemma handle_get_unfiltered sc qs st :
  get0 (parse_qs qs) "location" = None →
  get0 (parse_qs qs) "start_date" = None →
  get0 (parse_qs qs) "end_date" = None →
  wf st →
  ∃ body, (handle_get sc qs st).1 = Returned (Ok200 body) ∧
    body ≡ₚ set_sentiment sc <$> records st ∧
    Forall (λ rv, sentiment rv = Some (sc (ReviewBody rv))) body ∧
    descending body.
Proof.
  intros El Es Ee Hwf. unfold handle_get. rewrite El, Es, Ee.
  rewrite (query_Next sc None None None st StoreList) by reflexivity.
  destruct (respond_body sc StoreList st Hwf) as (body & Hb & Hp & Hd & Hs).
  exists body. split; [exact Hb|]. split; [|by split].
  rewrite Hp. unfold records. cbn [contents]. by rewrite <-list_fmap_compose.
Qed.


(** The records of an unfiltered response are the records of the store
    rearranged, each with its id, location, body and timestamp as stored and
    the sentiment the scorer gives the stored body. *)
Lemma handle_get_unfiltered_scored sc qs st body :
  get0 (parse_qs qs) "location" = None →
  get0 (parse_qs qs) "start_date" = None →
  get0 (parse_qs qs) "end_date" = None →
  wf st →
  (handle_get sc qs st).1 = Returned (Ok200 body) →
  ∃ stored, stored ≡ₚ records st ∧ Forall2 (scored sc) stored body.
Proof.
  intros El Es Ee Hwf. unfold handle_get. rewrite El, Es, Ee.
  rewrite (query_Next sc None None None st StoreList) by reflexivity.
  destruct (respond_scored sc StoreList st Hwf) as (order & body' & -> & Hp & Hs & _).
  intros [= <-]. exists ((heap st !!!.) <$> order). split.
  - unfold records. cbn [contents] in Hp. by rewrite Hp.
  - by apply Forall2_fmap_l.
Qed.

(** C4: a query with no filter answers 200 with every record of the store,
    each carrying the sentiment the scorer gives its body, in descending
    order of [sentiment.compound].  The records returned are those of the
    store, once each: there is a rearrangement of the stored records that
    matches the response record by record, with the same id, location, body
    and timestamp, and for sentiment the scorer's value on the stored
    body. *)
Theorem C4_unfiltered_query sc qs st :
  get0 (parse_qs qs) "location" = None →
  get0 (parse_qs qs) "start_date" = None →
  get0 (parse_qs qs) "end_date" = None →
  wf st →
  ∃ body, (handle_get sc qs st).1 = Returned (Ok200 body) ∧
    body ≡ₚ set_sentiment sc <$> records st ∧
    Forall (λ rv, sentiment rv = Some (sc (ReviewBody rv))) body ∧
    descending body ∧
    length body = length (reviews st) ∧
    ∃ stored, stored ≡ₚ records st ∧ Forall2 (scored sc) stored body.
Proof.
  intros El Es Ee Hwf.
  destruct (handle_get_unfiltered sc qs st El Es Ee Hwf) as (body & Hb & Hp & Hs & Hd).
  exists body. split; [exact Hb|]. split; [exact Hp|]. split; [exact Hs|].
  split; [exact Hd|]. split.
  - rewrite Hp. unfold records. by rewrite !length_fmap.
  - by apply (handle_get_unfiltered_scored sc qs st body El Es Ee Hwf).
Qed.

Lemma C4_unfiltered_query_witness :
  ∃ body, (handle_get sample_scores [] tied_state).1 = Returned (Ok200 body) ∧
    body ≡ₚ set_sentiment sample_scores <$> records tied_state ∧
    Forall (λ rv, sentiment rv = Some (sample_scores (ReviewBody rv))) body ∧
    descending body ∧
    length body = length (reviews tied_state) ∧
    ∃ stored, stored ≡ₚ records tied_state ∧ Forall2 (scored sample_scores) stored body.
Proof.
  apply (C4_unfiltered_query sample_scores [] tied_state);
    [reflexivity | reflexivity | reflexivity | exact tied_state_wf].
Defined.

(** The unfiltered response over a store with a tie: every record with its
    fields as stored, the greatest score first, the two neutral records in
    store order. *)
Example unfiltered_example :
  (handle_get sample_scores [] tied_state).1 =
  Returned (Ok200
    [{| ReviewId := "id-2"; Location := "Phoenix, Arizona";
        Timestamp := "2021-11-03 12:00:00";
        ReviewBody := "Amazing meal, wonderful staff";
        sentiment := Some (sample_scores "Amazing meal, wonderful staff") |};
     {| ReviewId := "id-1"; Location := "Denver, Colorado";
        Timestamp := "2021-11-02 18:30:00";
        ReviewBody := "We had dinner";
        sentiment := Some (sample_scores "We had dinner") |};
     {| ReviewId := "id-3"; Location := "Denver, Colorado";
        Timestamp := "2021-11-04 20:15:00";
        ReviewBody := "It was a meal";
        sentiment := Some (sample_scores "It was a meal") |};
     {| ReviewId := "id-0"; Location := "Denver, Colorado";
        Timestamp := "2021-10-25 09:05:59";
        ReviewBody := "Terrible service, cold food";
        sentiment := Some (sample_scores "Terrible service, cold food") |}]).
Proof. vm_compute. reflexivity. Qed.

(** C5: with well-formed filters over a store of well-formed timestamps the
    query answers 200, and the records it returns are those of the store,
    in store order, that pass the location filter, then the start-date
    filter, then the end-date filter: exactly the records that satisfy the
    three conditions together, dates being compared as midnight of the
    day. *)
Theorem C5_filter_semantics sc location start_date end_date st :
  location_wf location → date_wf start_date → date_wf end_date →
  timestamps_wf st → wf st →
  let kept :=
    filter (λ r, survives location start_date end_date (heap st !!! r)) (reviews st) in
  (∃ v, select location start_date end_date st = Next v ∧ contents st v = kept) ∧
  kept =
    filter (λ r, not_after end_date (heap st !!! r))
      (filter (λ r, not_before start_date (heap st !!! r))
        (filter (λ r, location_matches location (heap st !!! r)) (reviews st))) ∧
  (∀ r, r ∈ kept ↔
     r ∈ reviews st ∧ location_matches location (heap st !!! r) ∧
     not_before start_date (heap st !!! r) ∧ not_after end_date (heap st !!! r)) ∧
  (∀ s d, truthy start_date = Some s ∨ truthy end_date = Some s →
          Datetime.strptime_date s = Some d → midnight d = d) ∧
  ∃ body, (query sc location start_date end_date st).1 = Returned (Ok200 body) ∧
    body ≡ₚ (λ r, set_sentiment sc (heap st !!! r)) <$> kept ∧
    descending body.
Proof.
  intros Hl Hs He Hts Hwf kept.
  assert (kept =
    filter (λ r, not_after end_date (heap st !!! r))
      (filter (λ r, not_before start_date (heap st !!! r))
        (filter (λ r, location_matches location (heap st !!! r)) (reviews st))))
    as Hkept.
  { unfold kept. rewrite !list_filter_filter. apply list_filter_iff.
    intros r. unfold survives. rewrite !andb_True. tauto. }
  destruct (select_filters location start_date end_date st Hl Hs He Hts)
    as (v & Ev & Hv).
  rewrite <-Hkept in Hv.
  split; [by exists v|]. split; [exact Hkept|]. split; [|split].
  - intros r. unfold kept. rewrite list_elem_of_filter. unfold survives.
    rewrite !andb_True. tauto.
  - intros s d _ Hd. by eapply strptime_date_midnight.
  - rewrite (query_Next sc _ _ _ _ _ Ev).
    destruct (respond_body sc v st) as (body & Hb & Hp & Hd & _).
    { intros r Hr. apply Hwf. eapply elem_of_sublist; [exact Hr|].
      by eapply select_sublist. }
    exists body. rewrite <-Hv. by split.
Qed.

(** ** Validation of the location and the date parameters *)

(** Decide membership of a literal in the allow-list by evaluation. *)
Ltac allow_list :=
  rewrite allowed_locations_listed; apply (bool_decide_unpack _); by vm_compute.

Section Validation.
Context (sc : string → scores).

Lemma handle_get_invalid_location qs st loc :
  get0 (parse_qs qs) "location" = Some loc → loc ∉ allowed_locations →
  handle_get sc qs st = (Returned (BadRequest400 "Invalid location"), st).
Proof.
  intros Hloc Hno. unfold handle_get. apply query_Return.
  apply select_invalid_location with loc; [|exact Hno].
  by rewrite get0_truthy.
Qed.

Lemma query_blank_location start_date end_date st :
  query sc (Some "") start_date end_date st = query sc None start_date end_date st.
Proof. reflexivity. Qed.

Lemma handle_get_without_location qs st :
  (∀ v, ("location", v) ∈ qs → v = "") →
  handle_get sc qs st = handle_get sc (without "location" qs) st.
Proof.
  intros Hblank. unfold handle_get. rewrite !get0_parse_qs.
  rewrite values_of_without_eq, (values_of_blank "location" qs Hblank).
  rewrite (values_of_without "start_date" "location") by (intros H; discriminate H).
  by rewrite (values_of_without "end_date" "location") by (intros H; discriminate H).
Qed.

Lemma handle_get_not_invalid qs st :
  get0 (parse_qs qs) "location" = None →
  (handle_get sc qs st).1 ≠ Returned (BadRequest400 "Invalid location").
Proof.
  intros Hnone. unfold handle_get, query. rewrite Hnone.
  destruct (select None _ _ st) as [v|resp|e] eqn:E.
  - unfold respond. cbn [fst]. intros H. discriminate H.
  - apply select_Return in E as (_ & loc & Hloc & _). discriminate Hloc.
  - cbn [fst]. intros H. discriminate H.
Qed.

End Validation.

(** C6: a query whose location parameter is present and not in the
    allow-list is answered 400 with the error ["Invalid location"]; nothing
    is returned besides and the store is unchanged. *)
Theorem C6_invalid_location_query sc qs st loc :
  get0 (parse_qs qs) "location" = Some loc → loc ∉ allowed_locations →
  handle_get sc qs st = (Returned (BadRequest400 "Invalid location"), st).
Proof. apply handle_get_invalid_location. Qed.

Lemma C6_invalid_location_query_witness :
  handle_get sample_scores [("location", "Phoenix, AZ"); ("start_date", "2021-01-01")]
    sample_state = (Returned (BadRequest400 "Invalid location"), sample_state).
Proof.
  apply (C6_invalid_location_query sample_scores _ sample_state "Phoenix, AZ");
    [by vm_compute | allow_list].
Defined.

(** C10: when every [location] field of the query string is blank the
    request is handled as the same request without those fields: it is not
    answered ["Invalid location"], and an empty location filter is no filter. *)
Theorem C10_blank_location sc qs st :
  (∀ v, ("location", v) ∈ qs → v = "") →
  handle_get sc qs st = handle_get sc (without "location" qs) st ∧
  get0 (parse_qs qs) "location" = None ∧
  (handle_get sc qs st).1 ≠ Returned (BadRequest400 "Invalid location") ∧
  ∀ start_date end_date,
    query sc (Some "") start_date end_date st = query sc None start_date end_date st.
Proof.
  intros Hblank.
  assert (get0 (parse_qs qs) "location" = None) as Hnone.
  { by rewrite get0_parse_qs, (values_of_blank "location" qs Hblank). }
  split; [by apply handle_get_without_location|]. split; [exact Hnone|].
  split; [by apply handle_get_not_invalid|]. intros. apply query_blank_location.
Qed.

Lemma C10_blank_location_witness :
  handle_get sample_scores [("location", ""); ("end_date", "2021-12-31")] sample_state =
    handle_get sample_scores [("end_date", "2021-12-31")] sample_state.
Proof.
  refine (proj1 (C10_blank_location sample_scores
    [("location", ""); ("end_date", "2021-12-31")] sample_state _)).
  intros v Hv. apply elem_of_cons in Hv as [[= ->]|Hv]; [reflexivity|].
  apply list_elem_of_singleton in Hv. discriminate Hv.
Defined.

(** C2, counterexample: a query with a malformed [start_date] is not
    answered with an error result; [strptime] raises [ValueError] and the
    handler returns no response. *)
Lemma C2_malformed_date_not_an_error_result :
  Datetime.strptime_date "2021-13-45" = None ∧
  (handle_get sample_scores [("start_date", "2021-13-45")] sample_state).1 =
    Raised ValueError ∧
  ∀ resp, (handle_get sample_scores [("start_date", "2021-13-45")] sample_state).1 ≠
    Returned resp.
Proof.
  assert ((handle_get sample_scores [("start_date", "2021-13-45")] sample_state).1 =
    Raised ValueError) as E by (by vm_compute).
  split; [by vm_compute|]. split; [exact E|].
  intros resp. rewrite E. intros H. discriminate H.
Qed.

(** C2, as amended: when the location parameter is absent or allowed and
    the [start_date] or the [end_date] parameter is present, is ASCII text
    and is not a date [strptime] accepts for [%Y-%m-%d], the handler raises
    [ValueError]: it returns no response, and the store is unchanged. *)
Theorem C2_malformed_date_raises sc qs st s :
  location_wf (get0 (parse_qs qs) "location") →
  get0 (parse_qs qs) "start_date" = Some s ∨ get0 (parse_qs qs) "end_date" = Some s →
  isascii s = true →
  Datetime.strptime_date s = None →
  handle_get sc qs st = (Raised ValueError, st) ∧
  call sc (GET qs) st = (Raised ValueError, st).
Proof.
  intros Hloc Hs _ Hbad.
  assert (handle_get sc qs st = (Raised ValueError, st)) as E; [|by split].
  unfold handle_get. apply query_Raise. destruct Hs as [Hs|Hs].
  - apply select_bad_start with s; [exact Hloc | | exact Hbad].
    by rewrite get0_truthy.
  - apply select_bad_end with s; [exact Hloc | | exact Hbad].
    by rewrite get0_truthy.
Qed.

Lemma C2_malformed_date_raises_witness :
  handle_get sample_scores [("location", "Denver, Colorado"); ("end_date", "2021/12/31")]
    sample_state = (Raised ValueError, sample_state).
Proof.
  refine (proj1 (C2_malformed_date_raises sample_scores
    [("location", "Denver, Colorado"); ("end_date", "2021/12/31")] sample_state
    "2021/12/31" _ _ _ _)).
  - intros loc Hloc. vm_compute in Hloc. injection Hloc as <-. allow_list.
  - right. by vm_compute.
  - reflexivity.
  - by vm_compute.
Defined.

(** ** The submission handler *)

Section Submit.
Context (sc : string → scores).

Lemma submit_missing location review_body uuid4 now st :
  truthy location = None ∨ truthy review_body = None →
  submit sc location review_body uuid4 now st =
    (Returned (BadRequest400 "Location and ReviewBody are required"), st).
Proof.
  unfold submit. intros [->| ->]; [done|]. by destruct (truthy location).
Qed.

Lemma submit_invalid location review_body uuid4 now st loc body :
  truthy location = Some loc → truthy review_body = Some body →
  loc ∉ allowed_locations →
  submit sc location review_body uuid4 now st =
    (Returned (BadRequest400 "Invalid location"), st).
Proof. intros Hl Hb Hno. unfold submit. by rewrite Hl, Hb, decide_False. Qed.

Lemma submit_created location review_body uuid4 now st loc body :
  truthy location = Some loc → truthy review_body = Some body →
  loc ∈ allowed_locations →
  let new_review :=
    {| ReviewId := uuid4; Location := loc; Timestamp := Datetime.strftime now;
       ReviewBody := body; sentiment := Some (sc body) |} in
  submit sc location review_body uuid4 now st =
    (Returned (Created201 new_review),
     {| heap := <[fresh (dom (heap st)) := new_review]> (heap st);
        reviews := reviews st ++ [fresh (dom (heap st))] |}).
Proof. intros Hl Hb Hin. unfold submit. by rewrite Hl, Hb, decide_True. Qed.

(** The response ["Invalid location"] of a submission says exactly that
    both fields are given and the location is not allowed. *)
Lemma submit_invalid_iff location review_body uuid4 now st :
  (submit sc location review_body uuid4 now st).1 =
    Returned (BadRequest400 "Invalid location") ↔
  ∃ loc, truthy location = Some loc ∧ is_Some (truthy review_body) ∧
         loc ∉ allowed_locations.
Proof.
  split.
  - unfold submit. destruct (truthy location) as [loc|]; [|intros H; discriminate H].
    destruct (truthy review_body) as [body|]; [|intros H; discriminate H].
    case_decide as Hin; [intros H'; discriminate H'|]. intros _. exists loc. eauto.
  - intros (loc & Hl & [body Hb] & Hno).
    by rewrite (submit_invalid _ _ _ _ _ loc body).
Qed.

Lemma query_invalid_iff location start_date end_date st :
  (query sc location start_date end_date st).1 =
    Returned (BadRequest400 "Invalid location") ↔
  ∃ loc, truthy location = Some loc ∧ loc ∉ allowed_locations.
Proof.
  split.
  - unfold query. destruct (select location start_date end_date st) as [v|resp|e] eqn:E.
    + unfold respond. cbn [fst]. intros H. discriminate H.
    + intros _. by apply select_Return in E as [_ ?].
    + cbn [fst]. intros H. discriminate H.
  - intros (loc & Hl & Hno).
    by rewrite (query_Return sc _ _ _ _ _ (select_invalid_location _ _ _ _ _ Hl Hno)).
Qed.

End Submit.

(** C3, counterexample: the location ["Phoenix, AZ"] is not in the allow-list
    of the code; a submission with it is answered ["Invalid location"]. *)
Lemma C3_state_abbreviation_rejected :
  ("Phoenix, AZ" ∉ allowed_locations) ∧
  (handle_post sample_scores [("Location", "Phoenix, AZ"); ("ReviewBody", "Great tacos")]
     "7f3c" (Datetime.mk 2024 5 17 12 30 0) sample_state).1 =
    Returned (BadRequest400 "Invalid location").
Proof. split; [allow_list | by vm_compute]. Qed.

(** C3, as amended: the allow-list is the set of the 18 strings the code
    lists, each of the form ["City, State"] with the full name of the state
    (["Phoenix, Arizona"] is allowed); a submission with both fields given is
    answered ["Invalid location"] exactly when its location is outside the
    list, and so is a query whose location parameter is given. *)
Theorem C3_allowed_locations sc :
  size allowed_locations = 18 ∧
  (∀ s, s ∈ allowed_locations ↔ s ∈ listed_locations) ∧
  Forall city_state listed_locations ∧
  ("Phoenix, Arizona" ∈ allowed_locations) ∧
  (∀ loc body uuid4 now st,
     (handle_post sc [("Location", loc); ("ReviewBody", body)] uuid4 now st).1 =
       Returned (BadRequest400 "Invalid location") ↔
     loc ≠ "" ∧ body ≠ "" ∧ loc ∉ listed_locations) ∧
  (∀ loc st,
     (handle_get sc [("location", loc)] st).1 =
       Returned (BadRequest400 "Invalid location") ↔
     loc ≠ "" ∧ loc ∉ listed_locations).
Proof.
  split; [apply allowed_locations_size|]. split; [apply allowed_locations_listed|].
  split; [apply listed_locations_format|]. split; [allow_list|]. split.
  - intros loc body uuid4 now st. unfold handle_post.
    rewrite submit_invalid_iff, get0_cons_eq.
    rewrite (get0_cons_ne "Location" "ReviewBody") by (intros H; discriminate H).
    rewrite (get0_cons_ne "ReviewBody" "Location") by (intros H; discriminate H).
    rewrite get0_cons_eq, !get0_nil.
    setoid_rewrite allowed_locations_listed.
    destruct (decide (loc = "")) as [->|Hl].
    { split; [intros (? & H & _); discriminate H | intros [[] _]; reflexivity]. }
    rewrite (truthy_Some loc Hl). destruct (decide (body = "")) as [->|Hb].
    { split; [intros (? & _ & [? H] & _); discriminate H
             | intros (_ & [] & _); reflexivity]. }
    rewrite (truthy_Some body Hb). split.
    + intros (? & [= <-] & _ & ?). by split.
    + intros (_ & _ & ?). exists loc.
      split; [reflexivity|]. split; [by eexists | assumption].
  - intros loc st. unfold handle_get.
    rewrite query_invalid_iff, get0_cons_eq, get0_nil.
    setoid_rewrite allowed_locations_listed.
    destruct (decide (loc = "")) as [->|Hl].
    { split; [intros (? & H & _); discriminate H | intros [[] _]; reflexivity]. }
    rewrite (truthy_Some loc Hl). split.
    + intros (? & [= <-] & ?). by split.
    + intros (_ & ?). by exists loc.
Qed.

(** C7: a submission whose location or body is absent or empty is answered
    ["Location and ReviewBody are required"], whatever the location is;
    otherwise one whose location is not in the allow-list is answered
    ["Invalid location"]; in both cases the store is left as it was. *)
Theorem C7_submit_validation sc location review_body uuid4 now st :
  (truthy location = None ∨ truthy review_body = None →
     submit sc location review_body uuid4 now st =
       (Returned (BadRequest400 "Location and ReviewBody are required"), st)) ∧
  (∀ loc body, truthy location = Some loc → truthy review_body = Some body →
     loc ∉ allowed_locations →
     submit sc location review_body uuid4 now st =
       (Returned (BadRequest400 "Invalid location"), st)) ∧
  (∀ o, truthy o = None ↔ o = None ∨ o = Some "") ∧
  (∀ form,
     handle_post sc form uuid4 now st =
       submit sc (get0 (parse_qs form) "Location") (get0 (parse_qs form) "ReviewBody")
         uuid4 now st).
Proof.
  split; [apply submit_missing|]. split; [intros; by eapply submit_invalid|].
  split; [apply truthy_None | reflexivity].
Qed.

(** ** Successful submissions *)

Lemma same_fields_refl rv : same_fields rv rv.
Proof. by repeat split. Qed.

Lemma same_fields_trans a b c : same_fields a b → same_fields b c → same_fields a c.
Proof. unfold same_fields. intros (-> & -> & -> & ->) (-> & -> & -> & ->). done. Qed.

Lemma keeps_refl st : keeps st st.
Proof. split; [done|]. intros r rv Hr. exists rv. split; [done | apply same_fields_refl]. Qed.

Lemma keeps_trans st1 st2 st3 : keeps st1 st2 → keeps st2 st3 → keeps st1 st3.
Proof.
  intros [Hr12 Hh12] [Hr23 Hh23]. split; [by auto|].
  intros r rv Hrv. destruct (Hh12 r rv Hrv) as (rv2 & H2 & Hs2).
  destruct (Hh23 r rv2 H2) as (rv3 & H3 & Hs3).
  exists rv3. split; [done | by eapply same_fields_trans].
Qed.

Section Ingestion.
Context (sc : string → scores).

Lemma submit_Created location review_body uuid4 now st rv :
  (submit sc location review_body uuid4 now st).1 = Returned (Created201 rv) →
  ∃ loc body, truthy location = Some loc ∧ truthy review_body = Some body ∧
    loc ∈ allowed_locations.
Proof.
  unfold submit. destruct (truthy location) as [loc|]; [|intros H; discriminate H].
  destruct (truthy review_body) as [body|]; [|intros H; discriminate H].
  case_decide as Hin; [|intros H'; discriminate H']. intros _.
  exists loc, body. split; [reflexivity|]. split; [reflexivity | exact Hin].
Qed.

Lemma fresh_not_stored st : wf st → fresh (dom (heap st)) ∉ reviews st.
Proof.
  intros Hwf Hin. apply Hwf, elem_of_dom in Hin. by apply is_fresh in Hin.
Qed.

(** A submission that passes validation appends the new record, and only
    that. *)
Lemma submit_records location review_body uuid4 now st loc body :
  truthy location = Some loc → truthy review_body = Some body →
  loc ∈ allowed_locations → wf st →
  let new_review :=
    {| ReviewId := uuid4; Location := loc; Timestamp := Datetime.strftime now;
       ReviewBody := body; sentiment := Some (sc body) |} in
  let st' := (submit sc location review_body uuid4 now st).2 in
  (submit sc location review_body uuid4 now st).1 = Returned (Created201 new_review) ∧
  records st' = records st ++ [new_review] ∧
  heap st' !! fresh (dom (heap st)) = Some new_review ∧
  fresh (dom (heap st)) ∈ reviews st' ∧
  wf st' ∧ keeps st st'.
Proof.
  intros Hl Hb Hin Hwf new_review.
  rewrite (submit_created sc _ _ uuid4 now st loc body Hl Hb Hin). cbn [fst snd].
  fold new_review. set (r := fresh (dom (heap st))).
  assert (heap st !! r = None) as Hr by (apply not_elem_of_dom, is_fresh).
  split; [done|]. split; [|split; [|split; [|split]]].
  - unfold records. cbn [heap reviews]. rewrite fmap_app. f_equal.
    + apply list_fmap_ext. intros i r' Hr'. apply lookup_total_insert_ne.
      intros <-. apply (fresh_not_stored st Hwf). by eapply list_elem_of_lookup_2.
    + cbn. by rewrite lookup_total_insert_eq.
  - cbn [heap]. apply lookup_insert_eq.
  - cbn [reviews]. apply elem_of_app. right. left.
  - intros r'. cbn [heap reviews]. rewrite elem_of_app, list_elem_of_singleton.
    intros [Hr'| ->]; [|by rewrite lookup_insert_eq].
    rewrite lookup_insert_ne; [by apply Hwf|]. intros <-.
    by apply (fresh_not_stored st Hwf).
  - split; cbn [heap reviews].
    + intros r' Hr'. apply elem_of_app. by left.
    + intros r' rv Hrv. exists rv. split; [|apply same_fields_refl].
      rewrite lookup_insert_ne; [done|]. intros <-. rewrite Hr in Hrv. discriminate Hrv.
Qed.

Lemma submit_wf_keeps location review_body uuid4 now st :
  wf st →
  wf (submit sc location review_body uuid4 now st).2 ∧
  keeps st (submit sc location review_body uuid4 now st).2.
Proof.
  intros Hwf.
  destruct (truthy location) as [loc|] eqn:Hl;
    [destruct (truthy review_body) as [body|] eqn:Hb;
      [destruct (decide (loc ∈ allowed_locations)) as [Hin|Hno]|]|].
  - destruct (submit_records _ _ uuid4 now st loc body Hl Hb Hin Hwf)
      as (_ & _ & _ & _ & ? & ?). split; assumption.
  - rewrite (submit_invalid sc _ _ uuid4 now st loc body Hl Hb Hno).
    split; [done | apply keeps_refl].
  - rewrite submit_missing by by right. split; [done | apply keeps_refl].
  - rewrite submit_missing by by left. split; [done | apply keeps_refl].
Qed.

Lemma handle_get_wf_keeps qs st :
  wf st → wf (handle_get sc qs st).2 ∧ keeps st (handle_get sc qs st).2.
Proof.
  intros Hwf. destruct (handle_get_effect sc qs st) as (Hp & Hh & _).
  cbv zeta in Hp, Hh. split; [|split].
  - intros r Hr. rewrite Hp in Hr. apply Hwf in Hr as [rv Hrv].
    destruct (Hh r) as [-> | ->]; rewrite Hrv; by eexists.
  - intros r Hr. by rewrite Hp.
  - intros r rv Hrv. destruct (Hh r) as [-> | ->]; rewrite Hrv.
    + exists rv. split; [done | apply same_fields_refl].
    + exists (set_sentiment sc rv). split; [done | by repeat split].
Qed.

Lemma call_wf_keeps req st : wf st → wf (call sc req st).2 ∧ keeps st (call sc req st).2.
Proof.
  intros Hwf. destruct req as [qs|form uuid4 now|]; cbn [call].
  - by apply handle_get_wf_keeps.
  - by apply submit_wf_keeps.
  - split; [done | apply keeps_refl].
Qed.

Lemma run_wf_keeps reqs st : wf st → wf (run sc reqs st) ∧ keeps st (run sc reqs st).
Proof.
  revert st. induction reqs as [|req reqs IH]; intros st Hwf.
  - split; [done | apply keeps_refl].
  - destruct (call_wf_keeps req st Hwf) as [Hwf1 Hk1].
    destruct (IH _ Hwf1) as [Hwf2 Hk2]. split; [exact Hwf2|].
    by eapply keeps_trans.
Qed.

End Ingestion.




(** C9: the record a successful submission returns is found, with the same
    id, location, body and timestamp, in the answer to an unfiltered query
    made afterwards, whatever requests come in between. *)
Theorem C9_round_trip sc form uuid4 now st rv reqs :
  wf st →
  (handle_post sc form uuid4 now st).1 = Returned (Created201 rv) →
  let st1 := (handle_post sc form uuid4 now st).2 in
  let st2 := run sc reqs st1 in
  ∃ body rv', (handle_get sc [] st2).1 = Returned (Ok200 body) ∧
    rv' ∈ body ∧ same_fields rv rv'.
Proof.
  intros Hwf Hout st1 st2. unfold handle_post in Hout, st1.
  destruct (submit_Created sc _ _ _ _ _ _ Hout) as (loc & b & Hl & Hb & Hin).
  destruct (submit_records sc _ _ uuid4 now st loc b Hl Hb Hin Hwf)
    as (Hout' & _ & Hr & Hrin & Hwf1 & _).
  fold st1 in Hr, Hrin, Hwf1. rewrite Hout in Hout'. injection Hout' as ->.
  destruct (run_wf_keeps sc reqs st1 Hwf1) as [Hwf2 [Hk1 Hk2]]. fold st2 in Hwf2, Hk1, Hk2.
  set (r := fresh (dom (heap st))) in *.
  destruct (Hk2 r _ Hr) as (rv2 & Hr2 & Hsame). apply Hk1 in Hrin.
  destruct (handle_get_unfiltered sc [] st2) as (body & Hb2 & Hp & _);
    [apply get0_nil | apply get0_nil | apply get0_nil | exact Hwf2 |].
  exists body, (set_sentiment sc rv2). split; [exact Hb2|]. split.
  - rewrite Hp. unfold records. rewrite <-list_fmap_compose.
    apply list_elem_of_fmap. exists r. split; [|exact Hrin].
    cbn. by rewrite (lookup_total_correct _ _ _ Hr2).
  - eapply same_fields_trans; [exact Hsame | by repeat split].
Qed.

Lemma C9_round_trip_witness :
  ∃ body rv',
    (handle_get sample_scores []
       (run sample_scores [GET [("location", "Denver, Colorado")]]
          (handle_post sample_scores
             [("Location", "Denver, Colorado"); ("ReviewBody", "Terrible service, cold food")]
             "3b241101-e2bb-4255-8caf-4136c566a962" (Datetime.mk 2024 5 17 12 30 0)
             sample_state).2)).1 = Returned (Ok200 body) ∧
    rv' ∈ body ∧
    same_fields
      {| ReviewId := "3b241101-e2bb-4255-8caf-4136c566a962";
         Location := "Denver, Colorado";
         Timestamp := "2024-05-17 12:30:00";
         ReviewBody := "Terrible service, cold food";
         sentiment := Some {| neg := 508; neu := 492; pos := 0; compound := (-4767)%Z |} |}
      rv'.
Proof.
  apply (C9_round_trip sample_scores
    [("Location", "Denver, Colorado"); ("ReviewBody", "Terrible service, cold food")]
    "3b241101-e2bb-4255-8caf-4136c566a962" (Datetime.mk 2024 5 17 12 30 0) sample_state
    _ [GET [("location", "Denver, Colorado")]]);
    [exact sample_state_wf | by vm_compute].
Defined.

Lemma sample_state_timestamps_wf : timestamps_wf sample_state.
Proof.
  intros r Hr. cbn in Hr.
  apply elem_of_cons in Hr as [->|Hr]; [vm_compute; by eexists|].
  apply list_elem_of_singleton in Hr as ->. vm_compute. by eexists.
Qed.

Lemma C5_filter_semantics_witness :
  ∃ body,
    (query sample_scores (Some "Denver, Colorado") (Some "2021-10-25") (Some "2021-10-26")
       sample_state).1 = Returned (Ok200 body) ∧
    body ≡ₚ (λ r, set_sentiment sample_scores (heap sample_state !!! r)) <$>
      filter (λ r, survives (Some "Denver, Colorado") (Some "2021-10-25")
                     (Some "2021-10-26") (heap sample_state !!! r))
        (reviews sample_state) ∧
    descending body.
Proof.
  refine (proj2 (proj2 (proj2 (proj2 (C5_filter_semantics sample_scores
    (Some "Denver, Colorado") (Some "2021-10-25") (Some "2021-10-26") sample_state
    _ _ _ sample_state_timestamps_wf sample_state_wf))))).
  - intros loc [= <-]. allow_list.
  - intros s [= <-]. vm_compute. by eexists.
  - intros s [= <-]. vm_compute. by eexists.
Defined.

Example filter_example :
  (query sample_scores (Some "Denver, Colorado") (Some "2021-10-25") (Some "2021-10-26")
     sample_state).1 =
  Returned (Ok200
    [{| ReviewId := "id-0"; Location := "Denver, Colorado";
        Timestamp := "2021-10-25 09:05:59";
        ReviewBody := "Terrible service, cold food";
        sentiment := Some {| neg := 508; neu := 492; pos := 0; compound := (-4767)%Z |} |}]).
Proof. by vm_compute. Qed.

(** The end date is compared as midnight: a review written later on the
    end day itself is left out. *)
Example end_date_is_midnight :
  (query sample_scores None None (Some "2021-10-25") sample_state).1 =
  Returned (Ok200 []).
Proof. by vm_compute. Qed.

(** A start date after every record leaves nothing. *)
Example start_date_after_all :
  (handle_get sample_scores [("start_date", "2999-01-01")] sample_state).1 =
  Returned (Ok200 []).
Proof. by vm_compute. Qed.

(** Of two submissions, the one the scorer rates higher comes first in the
    next unfiltered query. *)
Example positive_before_negative :
  let st1 := (submit sample_scores (Some "Denver, Colorado")
                (Some "Terrible service, cold food") "id-a"
                (Datetime.mk 2024 5 17 12 30 0) {| heap := ∅; reviews := [] |}).2 in
  let st2 := (submit sample_scores (Some "Denver, Colorado")
                (Some "Amazing meal, wonderful staff") "id-b"
                (Datetime.mk 2024 5 17 12 30 1) st1).2 in
  match (handle_get sample_scores [] st2).1 with
  | Returned (Ok200 body) => ReviewId <$> body = ["id-b"; "id-a"]
  | _ => False
  end.
Proof. by vm_compute. Qed.

(** * Further properties of the handlers *)

(** ** Sequences of requests *)

Section Sequences.
Context (sc : string → scores).

Lemma run_cons req reqs st : run sc (req :: reqs) st = run sc reqs (call sc req st).2.
Proof. reflexivity. Qed.

Lemma handle_get_outcome qs st :
  (∃ body, (handle_get sc qs st).1 = Returned (Ok200 body)) ∨
  ((handle_get sc qs st).1 = Returned (BadRequest400 "Invalid location") ∧
   (handle_get sc qs st).2 = st) ∨
  ((handle_get sc qs st).1 = Raised ValueError ∧ (handle_get sc qs st).2 = st).
Proof.
  unfold handle_get, query.
  destruct (select _ _ _ st) as [v|resp|[]] eqn:E.
  - left. unfold respond. cbn [fst]. by eexists.
  - right. left. by destruct (select_Return _ _ _ _ _ E) as [-> _].
  - right. right. by split.
Qed.

Lemma handle_get_length qs st :
  length (reviews (handle_get sc qs st).2) = length (reviews st).
Proof.
  destruct (handle_get_effect sc qs st) as (Hp & _). cbv zeta in Hp. by rewrite Hp.
Qed.

Lemma submit_outcome location review_body uuid4 now st :
  (∃ rv, (submit sc location review_body uuid4 now st).1 = Returned (Created201 rv) ∧
     reviews (submit sc location review_body uuid4 now st).2 =
       reviews st ++ [fresh (dom (heap st))]) ∨
  (is_success (submit sc location review_body uuid4 now st).1 = false ∧
   (submit sc location review_body uuid4 now st).2 = st).
Proof.
  unfold submit. destruct (truthy location) as [loc|]; [|by right].
  destruct (truthy review_body) as [body|]; [|by right].
  case_decide.
  - left. eexists. split; reflexivity.
  - right. split; reflexivity.
Qed.

(** A request changes the store only when it is answered 200 or 201, and
    the number of records only when it is answered 201, by one. *)
Lemma call_accounting req st :
  (is_success (call sc req st).1 = false → (call sc req st).2 = st) ∧
  length (reviews (call sc req st).2) =
    length (reviews st) + (if is_created (call sc req st).1 then 1 else 0).
Proof.
  destruct req as [qs|form uuid4 now|]; cbn [call].
  - destruct (handle_get_outcome qs st) as [[body E]|[[E Hst]|[E Hst]]].
    + rewrite E. cbn [is_success is_created]. split; [intros H; discriminate H|].
      rewrite handle_get_length. lia.
    + rewrite E, Hst. cbn. split; [done | lia].
    + rewrite E, Hst. cbn. split; [done | lia].
  - unfold handle_post.
    destruct (submit_outcome (get0 (parse_qs form) "Location")
                (get0 (parse_qs form) "ReviewBody") uuid4 now st)
      as [(rv & E & Hr)|[E Hst]].
    + rewrite E, Hr. cbn [is_success is_created].
      split; [intros H; discriminate H|]. rewrite length_app. cbn. lia.
    + split; [by intros _|]. rewrite Hst.
      destruct (submit _ _ _ _ _ _).1 as [[]|]; cbn in E |- *; try discriminate E; lia.
  - cbn. split; [done | lia].
Qed.

End Sequences.

(** X1: over any sequence of requests the store grows by exactly one record
    for each request answered 201, and a request that is not answered 200 or
    201 (a 400 or 405 response, an exception) leaves the state as it was. *)
Theorem store_size_accounting sc reqs st :
  length (reviews (run sc reqs st)) =
    length (reviews st) + length (filter is_created (outcomes sc reqs st)) ∧
  ∀ req st0, is_success (call sc req st0).1 = false → (call sc req st0).2 = st0.
Proof.
  split; [|intros req st0; apply call_accounting].
  revert st. induction reqs as [|req reqs IH]; intros st; [cbn; lia|].
  rewrite run_cons, IH. cbn [outcomes]. rewrite filter_cons.
  destruct (call_accounting sc req st) as [_ ->].
  destruct (is_created (call sc req st).1).
  - rewrite decide_True by done. cbn [length]. lia.
  - rewrite decide_False by (intros []). lia.
Qed.

(** X2: the store is append-only: after any sequence of requests every
    reference of the store is still in the list, and its dictionary still
    has the same id, location, body and timestamp. *)
Theorem store_append_only sc reqs st r rv :
  wf st → r ∈ reviews st → heap st !! r = Some rv →
  r ∈ reviews (run sc reqs st) ∧
  ∃ rv', heap (run sc reqs st) !! r = Some rv' ∧
    ReviewId rv' = ReviewId rv ∧ Location rv' = Location rv ∧
    ReviewBody rv' = ReviewBody rv ∧ Timestamp rv' = Timestamp rv.
Proof.
  intros Hwf Hr Hrv. destruct (run_wf_keeps sc reqs st Hwf) as [_ [Hk1 Hk2]].
  split; [by apply Hk1|]. destruct (Hk2 r rv Hrv) as (rv' & Hrv' & H1 & H2 & H3 & H4).
  by exists rv'.
Qed.

Lemma store_append_only_witness :
  0 ∈ reviews (run sample_scores
    [GET []; POST [("Location", "Tucson, Arizona"); ("ReviewBody", "ok")] "id-2"
                  (Datetime.mk 2024 5 17 12 30 0); OTHER] sample_state) ∧
  ∃ rv', heap (run sample_scores
    [GET []; POST [("Location", "Tucson, Arizona"); ("ReviewBody", "ok")] "id-2"
                  (Datetime.mk 2024 5 17 12 30 0); OTHER] sample_state) !! 0 = Some rv' ∧
    ReviewId rv' = "id-0" ∧ Location rv' = "Denver, Colorado" ∧
    ReviewBody rv' = "Terrible service, cold food" ∧
    Timestamp rv' = "2021-10-25 09:05:59".
Proof.
  apply (store_append_only sample_scores _ sample_state 0
    {| ReviewId := "id-0"; Location := "Denver, Colorado";
       Timestamp := "2021-10-25 09:05:59";
       ReviewBody := "Terrible service, cold food"; sentiment := None |});
    [exact sample_state_wf | by left | reflexivity].
Defined.

(** ** Invariants of the records *)

Section Invariants.
Context (sc : string → scores).

Lemma records_elem_of st rv :
  rv ∈ records st ↔ ∃ r, r ∈ reviews st ∧ rv = heap st !!! r.
Proof.
  unfold records. rewrite list_elem_of_fmap. split; intros (r & ? & ?); eauto.
Qed.

(** The records after a query are those before, in some order, each with
    the same four fields. *)
Lemma handle_get_records qs st :
  wf st →
  ∃ l, l ≡ₚ records st ∧
    Forall2 same_fields l (records (handle_get sc qs st).2).
Proof.
  intros Hwf. destruct (handle_get_effect sc qs st) as (Hp & Hh & _).
  cbv zeta in Hp, Hh. set (st' := (handle_get sc qs st).2) in *.
  exists ((heap st !!!.) <$> reviews st'). split.
  - unfold records. by rewrite Hp.
  - unfold records. apply Forall2_fmap, Forall_Forall2_diag, Forall_forall.
    intros r Hr. rewrite Hp in Hr. destruct (Hwf r Hr) as [rv Hrv].
    rewrite (lookup_total_correct _ _ _ Hrv).
    destruct (Hh r) as [E|E]; rewrite Hrv in E;
      rewrite (lookup_total_correct _ _ _ E); by repeat split.
Qed.

(** A request that is answered 201 adds the record it answers with; any
    other leaves every record's four fields as they were. *)
Lemma call_records req st :
  wf st →
  ∃ l, l ≡ₚ records st ∧
    Forall2 same_fields
      (l ++ match (call sc req st).1 with
            | Returned (Created201 rv) => [rv]
            | _ => []
            end)
      (records (call sc req st).2).
Proof.
  intros Hwf. destruct req as [qs|form uuid4 now|]; cbn [call].
  - destruct (handle_get_records qs st Hwf) as (l & Hl & Hf). exists l.
    split; [exact Hl|].
    destruct (handle_get_outcome sc qs st) as [[body ->]|[[-> _]|[-> _]]];
      by rewrite app_nil_r.
  - exists (records st). split; [done|]. unfold handle_post.
    set (location := get0 (parse_qs form) "Location").
    set (review_body := get0 (parse_qs form) "ReviewBody").
    destruct (truthy location) as [loc|] eqn:Hl;
      [destruct (truthy review_body) as [body|] eqn:Hb;
        [destruct (decide (loc ∈ allowed_locations)) as [Hin|Hno]|]|].
    + destruct (submit_records sc _ _ uuid4 now st loc body Hl Hb Hin Hwf)
        as (-> & -> & _).
      apply Forall_Forall2_diag, Forall_forall. intros; apply same_fields_refl.
    + rewrite (submit_invalid sc _ _ uuid4 now st loc body Hl Hb Hno).
      cbn [fst snd]. rewrite app_nil_r.
      apply Forall_Forall2_diag, Forall_forall. intros; apply same_fields_refl.
    + rewrite submit_missing by (right; exact Hb). cbn [fst snd]. rewrite app_nil_r.
      apply Forall_Forall2_diag, Forall_forall. intros; apply same_fields_refl.
    + rewrite submit_missing by (left; exact Hl). cbn [fst snd]. rewrite app_nil_r.
      apply Forall_Forall2_diag, Forall_forall. intros; apply same_fields_refl.
  - exists (records st). split; [done|]. cbn [fst snd]. rewrite app_nil_r.
    apply Forall_Forall2_diag, Forall_forall. intros; apply same_fields_refl.
Qed.

(** A property of records that looks at the id, location, body and
    timestamp only, holds of the store, and holds of every record a request
    of the sequence can be answered with, holds of the store afterwards. *)
Lemma run_records_invariant (P : Review → Prop) (Q : request → Prop) reqs st :
  (∀ a b, same_fields a b → P a → P b) →
  (∀ req st0 rv, Q req → (call sc req st0).1 = Returned (Created201 rv) → P rv) →
  Forall Q reqs →
  wf st → Forall P (records st) → Forall P (records (run sc reqs st)).
Proof.
  intros Hsame Hnew. revert st. induction reqs as [|req reqs IH];
    intros st HQ Hwf HP; [exact HP|].
  apply Forall_cons in HQ as [Hq HQ]. rewrite run_cons. apply IH; [exact HQ | |].
  - by apply call_wf_keeps.
  - destruct (call_records req st Hwf) as (l & Hl & Hf).
    assert (Forall P (l ++ match (call sc req st).1 with
                           | Returned (Created201 rv) => [rv]
                           | _ => []
                           end)) as HPl.
    { apply Forall_app. split; [by rewrite Hl|].
      destruct (call sc req st).1 as [[]|] eqn:E; try apply Forall_nil_2.
      apply Forall_singleton. by eapply Hnew. }
    clear -Hsame Hf HPl. induction Hf as [|a b la lb Hab _ IHf]; [constructor|].
    apply Forall_cons in HPl as [Ha HPl]. constructor; [by eapply Hsame | by apply IHf].
Qed.

Lemma call_Created req st rv :
  (call sc req st).1 = Returned (Created201 rv) →
  ∃ form uuid4 now loc body,
    req = POST form uuid4 now ∧ loc ∈ allowed_locations ∧ body ≠ "" ∧
    rv = {| ReviewId := uuid4; Location := loc; Timestamp := Datetime.strftime now;
            ReviewBody := body; sentiment := Some (sc body) |}.
Proof.
  destruct req as [qs|form uuid4 now|]; cbn [call].
  - destruct (handle_get_outcome sc qs st) as [[body ->]|[[-> _]|[-> _]]];
      intros H; discriminate H.
  - unfold handle_post. intros E.
    destruct (submit_Created sc _ _ _ _ _ _ E) as (loc & body & Hl & Hb & Hin).
    rewrite (submit_created sc _ _ uuid4 now st loc body Hl Hb Hin) in E.
    cbn [fst] in E. injection E as <-.
    exists form, uuid4, now, loc, body. split; [reflexivity|]. split; [exact Hin|].
    split; [|reflexivity]. by apply truthy_Some_inv in Hb as [_ ?].
  - intros H. discriminate H.
Qed.

End Invariants.

(** X3: if every record of the store has an allowed location and a body
    that is not empty, the same holds after any sequence of requests. *)
Theorem store_records_admissible sc reqs st :
  wf st → Forall admissible (records st) →
  Forall admissible (records (run sc reqs st)).
Proof.
  intros Hwf Hst.
  apply (run_records_invariant sc admissible (λ _, True)); try done.
  - intros a b (_ & Hl & Hb & _) [Ha Hb']. unfold admissible.
    split; [rewrite <-Hl; exact Ha | rewrite <-Hb; exact Hb'].
  - intros req st0 rv _ E.
    destruct (call_Created sc _ _ _ E) as (? & ? & ? & loc & body & _ & ? & ? & ->).
    split; assumption.
  - by apply Forall_forall.
Qed.

Lemma sample_state_admissible : Forall admissible (records sample_state).
Proof.
  repeat constructor; cbn; try (intros H; discriminate H); allow_list.
Qed.

Lemma store_records_admissible_witness :
  Forall admissible (records (run sample_scores
    [POST [("Location", "Tucson, Arizona"); ("ReviewBody", "ok")] "id-2"
          (Datetime.mk 2024 5 17 12 30 0); GET []] sample_state)).
Proof.
  apply (store_records_admissible sample_scores _ sample_state);
    [exact sample_state_wf | exact sample_state_admissible].
Defined.

Lemma timestamps_wf_records st :
  timestamps_wf st ↔
  Forall (λ rv, is_Some (Datetime.strptime_datetime (Timestamp rv))) (records st).
Proof.
  unfold timestamps_wf, records. rewrite Forall_fmap, Forall_forall. done.
Qed.

(** X4: the timestamps the server writes are timestamps it can read: if
    every stored timestamp is accepted by [strptime] and every [POST] of a
    sequence reads a valid clock, every stored timestamp is accepted
    afterwards, so a query with well-formed filters is then answered 200 and
    raises nothing. *)
Theorem store_timestamps_readable sc reqs st location start_date end_date :
  wf st → timestamps_wf st → Forall clock_ok reqs →
  location_wf location → date_wf start_date → date_wf end_date →
  timestamps_wf (run sc reqs st) ∧
  ∃ body,
    (query sc location start_date end_date (run sc reqs st)).1 = Returned (Ok200 body).
Proof.
  intros Hwf Hts Hclock Hl Hs He.
  assert (timestamps_wf (run sc reqs st)) as Hts'.
  { apply timestamps_wf_records.
    apply (run_records_invariant sc _ clock_ok); try done.
    - intros a b (_ & _ & _ & Ht). by rewrite Ht.
    - intros req st0 rv Hq E.
      destruct (call_Created sc _ _ _ E) as (? & ? & now & ? & ? & -> & _ & _ & ->).
      destruct Hq as [Hv [_ Hy]]. cbn [Timestamp].
      rewrite (DatetimeFacts.strptime_strftime now Hv Hy). by eexists.
    - by apply timestamps_wf_records. }
  split; [exact Hts'|].
  destruct (select_filters location start_date end_date _ Hl Hs He Hts') as (v & Ev & _).
  rewrite (query_Next sc _ _ _ _ _ Ev). unfold respond. cbn [fst]. by eexists.
Qed.

Lemma store_timestamps_readable_witness :
  ∃ body,
    (query sample_scores (Some "Tucson, Arizona") (Some "2024-01-01") None
       (run sample_scores
          [POST [("Location", "Tucson, Arizona"); ("ReviewBody", "ok")] "id-2"
                (Datetime.mk 2024 5 17 12 30 0)] sample_state)).1 =
    Returned (Ok200 body).
Proof.
  refine (proj2 (store_timestamps_readable sample_scores
    [POST [("Location", "Tucson, Arizona"); ("ReviewBody", "ok")] "id-2"
          (Datetime.mk 2024 5 17 12 30 0)] sample_state
    (Some "Tucson, Arizona") (Some "2024-01-01") None
    sample_state_wf sample_state_timestamps_wf _ _ _ _)).
  - apply Forall_cons. split; [|apply Forall_nil_2].
    split; [reflexivity | unfold Datetime.MAXYEAR; cbn [Datetime.year]; lia].
  - intros loc [= <-]. allow_list.
  - intros s [= <-]. vm_compute. by eexists.
  - intros s H. discriminate H.
Defined.

Section Ids.
Context (sc : string → scores).

(** The ids of the store after a request are those before, in some order,
    and the UUID of the request when it is answered 201. *)
Lemma call_ids req st :
  wf st →
  ∃ new, ReviewId <$> records (call sc req st).2 ≡ₚ (ReviewId <$> records st) ++ new ∧
    new `sublist_of` uuids [req].
Proof.
  intros Hwf. destruct (call_records sc req st Hwf) as (l & Hl & Hf).
  assert (∀ la lb, Forall2 same_fields la lb → ReviewId <$> lb = ReviewId <$> la) as Hids.
  { induction 1 as [|a b la lb (Hid & _) _ IH]; [done|]. cbn. by rewrite Hid, IH. }
  assert (ReviewId <$> records (call sc req st).2 ≡ₚ
          (ReviewId <$> records st) ++
          (ReviewId <$> match (call sc req st).1 with
                        | Returned (Created201 rv) => [rv]
                        | _ => []
                        end)) as Hrec.
  { by rewrite (Hids _ _ Hf), fmap_app, Hl. }
  destruct (call sc req st).1 as [[| rv | |]|] eqn:E;
    try (exists []; split; [exact Hrec | apply sublist_nil_l]).
  destruct (call_Created sc _ _ _ E) as (form & uuid4 & now & ? & ? & -> & _ & _ & ->).
  exists [uuid4]. split; [exact Hrec | reflexivity].
Qed.

Lemma uuids_cons req reqs : uuids (req :: reqs) = uuids [req] ++ uuids reqs.
Proof. by destruct req. Qed.

Lemma run_ids reqs st :
  wf st → NoDup ((ReviewId <$> records st) ++ uuids reqs) →
  NoDup (ReviewId <$> records (run sc reqs st)).
Proof.
  revert st. induction reqs as [|req reqs IH]; intros st Hwf Hnd.
  - by rewrite app_nil_r in Hnd.
  - rewrite run_cons. apply IH; [by apply call_wf_keeps|].
    destruct (call_ids req st Hwf) as (new & Hperm & Hnew).
    rewrite uuids_cons in Hnd.
    rewrite Hperm, <-app_assoc.
    eapply sublist_NoDup; [exact Hnd|].
    apply sublist_app; [done|]. by apply sublist_app.
Qed.

End Ids.

(** X5: ids stay unique: if the ids of the store and the UUIDs the
    [POST]s of a sequence draw are pairwise distinct, the ids of the store
    are pairwise distinct after the sequence. *)
Theorem store_ids_unique sc reqs st :
  wf st → NoDup ((ReviewId <$> records st) ++ uuids reqs) →
  NoDup (ReviewId <$> records (run sc reqs st)).
Proof. apply run_ids. Qed.

Lemma store_ids_unique_witness :
  NoDup (ReviewId <$> records (run sample_scores
    [POST [("Location", "Tucson, Arizona"); ("ReviewBody", "ok")] "id-2"
          (Datetime.mk 2024 5 17 12 30 0);
     GET [];
     POST [("Location", "Tucson, Arizona"); ("ReviewBody", "ok")] "id-3"
          (Datetime.mk 2024 5 17 12 30 0)] sample_state)).
Proof.
  apply (store_ids_unique sample_scores _ sample_state); [exact sample_state_wf|].
  apply (bool_decide_unpack _). by vm_compute.
Defined.

(** ** Repeated queries and ties *)

Section Sorted.
Context (key : ref → Z).

Lemma sort_desc_sorted_id l : StronglySorted (desc key) l → sort_desc key l = l.
Proof.
  induction 1 as [|x l Hl IH Hx]; [done|]. cbn [sort_desc foldr].
  fold (sort_desc key l). rewrite IH. destruct Hx as [|y l' Hy _]; [done|].
  cbn [insert_desc]. rewrite bool_decide_eq_false_2; [done|]. unfold desc in Hy. lia.
Qed.

Lemma sort_desc_idemp l : sort_desc key (sort_desc key l) = sort_desc key l.
Proof. apply sort_desc_sorted_id, sort_desc_sorted. Qed.

End Sorted.

Section Repeat.
Context (sc : string → scores).

Lemma annotate_fields l (h : gmap ref Review) r :
  Location (annotate sc l h !!! r) = Location (h !!! r) ∧
  Timestamp (annotate sc l h !!! r) = Timestamp (h !!! r).
Proof.
  rewrite !lookup_total_alt, annotate_lookup.
  case_decide; destruct (h !! r); by split.
Qed.

Lemma annotate_idemp l l' (h : gmap ref Review) :
  (∀ r, r ∈ l' ↔ r ∈ l) → annotate sc l' (annotate sc l h) = annotate sc l h.
Proof.
  intros Hl. apply map_eq. intros r. rewrite !annotate_lookup.
  destruct (decide (r ∈ l)) as [Hr|Hr].
  - rewrite decide_True by by apply Hl. by destruct (h !! r).
  - rewrite decide_False; [done|]. by rewrite Hl.
Qed.

Lemma by_timestamp_ext (h h' : gmap ref Review) keep l :
  (∀ r, Timestamp (h' !!! r) = Timestamp (h !!! r)) →
  by_timestamp h' keep l = by_timestamp h keep l.
Proof.
  intros Hts. induction l as [|r l IH]; [done|]. cbn [by_timestamp].
  by rewrite Hts, IH.
Qed.

Lemma by_location_ext (h h' : gmap ref Review) loc l :
  (∀ r, Location (h' !!! r) = Location (h !!! r)) →
  by_location h' loc l = by_location h loc l.
Proof.
  intros Hloc. unfold by_location. apply list_filter_iff. intros r. by rewrite Hloc.
Qed.

(** The filters read the location and the timestamp of the dictionaries
    and the store list, nothing else. *)
Lemma select_ext location start_date end_date st st' :
  reviews st' = reviews st →
  (∀ r, Location (heap st' !!! r) = Location (heap st !!! r)) →
  (∀ r, Timestamp (heap st' !!! r) = Timestamp (heap st !!! r)) →
  select location start_date end_date st' = select location start_date end_date st.
Proof.
  intros Hr Hl Ht.
  assert (∀ v, contents st' v = contents st v) as Hc by (intros []; cbn; by rewrite ?Hr).
  assert (∀ v, location_step location st' v = location_step location st v) as E1.
  { intros v. unfold location_step. rewrite Hc.
    destruct (truthy location) as [loc|]; [|reflexivity].
    by rewrite (by_location_ext _ _ _ _ Hl). }
  assert (∀ v, start_step start_date st' v = start_step start_date st v) as E2.
  { intros v. unfold start_step. rewrite Hc.
    destruct (truthy start_date) as [s|]; [|reflexivity].
    unfold mbind, flow_bind, parsed.
    destruct (Datetime.strptime_date s); [|reflexivity].
    by rewrite (by_timestamp_ext _ _ _ _ Ht). }
  assert (∀ v, end_step end_date st' v = end_step end_date st v) as E3.
  { intros v. unfold end_step. rewrite Hc.
    destruct (truthy end_date) as [s|]; [|reflexivity].
    unfold mbind, flow_bind, parsed.
    destruct (Datetime.strptime_date s); [|reflexivity].
    by rewrite (by_timestamp_ext _ _ _ _ Ht). }
  unfold select. rewrite E1.
  destruct (location_step location st StoreList) as [v1| |]; try reflexivity.
  unfold mbind, flow_bind. rewrite E2.
  destruct (start_step start_date st v1) as [v2| |]; try reflexivity.
  apply E3.
Qed.

Lemma respond_again v v1 st :
  contents (respond sc v st).2 v1 =
    sort_desc (λ r, compound_of (annotate sc (contents st v) (heap st) !!! r))
      (contents st v) ∨
  contents (respond sc v st).2 v1 = contents st v →
  (v1 = StoreList ↔ v = StoreList) →
  respond sc v1 (respond sc v st).2 = respond sc v st.
Proof.
  set (l := contents st v). set (h1 := annotate sc l (heap st)).
  set (s1 := sort_desc (λ r, compound_of (h1 !!! r)) l).
  set (st1 := {| heap := h1;
                 reviews := match v with StoreList => s1 | FreshList _ => reviews st end |}).
  change (respond sc v st) with (Returned (Ok200 ((h1 !!!.) <$> s1)), st1).
  cbn [snd]. intros Hc Hv. unfold respond. cbn [heap].
  set (l1 := contents st1 v1) in *.
  assert (∀ r, r ∈ l1 ↔ r ∈ l) as Hl1.
  { intros r. destruct Hc as [-> | ->]; [apply sort_desc_elem_of | done]. }
  change (heap st1) with h1.
  assert (annotate sc l1 h1 = h1) as -> by by apply annotate_idemp.
  assert (sort_desc (λ r, compound_of (h1 !!! r)) l1 = s1) as ->.
  { destruct Hc as [-> | ->]; [apply sort_desc_idemp | done]. }
  f_equal. unfold st1. f_equal. destruct v1 as [|l1'], v as [|l'];
    cbn [reviews]; try reflexivity; exfalso; destruct Hv as [Hv Hv'];
    first [discriminate (Hv eq_refl) | discriminate (Hv' eq_refl)].
Qed.

(** Asking the same query again gives the same answer and changes nothing
    more. *)
Lemma query_idempotent location start_date end_date st :
  query sc location start_date end_date
    (query sc location start_date end_date st).2 =
  query sc location start_date end_date st.
Proof.
  unfold query at 2 3.
  destruct (select location start_date end_date st) as [v|resp|e] eqn:E.
  - destruct v as [|l].
    + assert (select location start_date end_date (respond sc StoreList st).2 =
              Next StoreList) as E1.
      { apply select_StoreList. by apply select_StoreList in E. }
      rewrite (query_Next sc _ _ _ _ _ E1). apply respond_again; [by left | done].
    + assert (select location start_date end_date (respond sc (FreshList l) st).2 =
              Next (FreshList l)) as E1.
      { rewrite <-E. apply select_ext; [reflexivity | |]; intros r;
          unfold respond; cbn [snd heap]; apply annotate_fields. }
      rewrite (query_Next sc _ _ _ _ _ E1). apply respond_again; [by right | done].
  - cbn [snd]. by rewrite (query_Return sc _ _ _ _ _ E).
  - cbn [snd]. by rewrite (query_Raise sc _ _ _ _ _ E).
Qed.

End Repeat.

(** X6: a query is idempotent: the same request made again at once is
    answered the same and leaves the state as the first one left it. *)
Theorem handle_get_idempotent sc qs st :
  handle_get sc qs (handle_get sc qs st).2 = handle_get sc qs st.
Proof. unfold handle_get. apply query_idempotent. Qed.

(** X7: the sort of a response is stable.  The records a query answers
    with are the stored records of a sub-list of the store, rearranged,
    each with its id, location, body and timestamp as stored and the
    scorer's value for its body; and among them, those the scorer gives
    the same compound score come in the order the store holds them. *)
Theorem ties_keep_store_order sc location start_date end_date st body :
  wf st →
  (query sc location start_date end_date st).1 = Returned (Ok200 body) →
  ∃ kept order, kept `sublist_of` reviews st ∧ order ≡ₚ kept ∧
    Forall2 (λ r rv, scored sc (heap st !!! r) rv) order body ∧
    ∀ k, filter (λ r, score_of sc (heap st !!! r) = k) order =
         filter (λ r, score_of sc (heap st !!! r) = k) kept.
Proof.
  intros Hwf. unfold query.
  destruct (select location start_date end_date st) as [v|resp|e] eqn:E.
  - intros Hbody.
    assert (∀ r, r ∈ contents st v → is_Some (heap st !! r)) as Hlive.
    { intros r Hr. apply Hwf. eapply elem_of_sublist; [exact Hr|].
      by eapply select_sublist. }
    destruct (respond_scored sc v st Hlive) as (order & body' & Hb & Hp & Hs & Hk).
    rewrite Hbody in Hb. injection Hb as <-.
    exists (contents st v), order. split; [by eapply select_sublist|].
    split; [exact Hp|]. split; [exact Hs | exact Hk].
  - destruct (select_Return _ _ _ _ _ E) as [-> _]. intros H. discriminate H.
  - intros H. discriminate H.
Qed.

Lemma ties_keep_store_order_witness :
  let body :=
    [{| ReviewId := "id-1"; Location := "Denver, Colorado";
        Timestamp := "2021-11-02 18:30:00"; ReviewBody := "We had dinner";
        sentiment := Some (sample_scores "We had dinner") |};
     {| ReviewId := "id-3"; Location := "Denver, Colorado";
        Timestamp := "2021-11-04 20:15:00"; ReviewBody := "It was a meal";
        sentiment := Some (sample_scores "It was a meal") |};
     {| ReviewId := "id-0"; Location := "Denver, Colorado";
        Timestamp := "2021-10-25 09:05:59"; ReviewBody := "Terrible service, cold food";
        sentiment := Some (sample_scores "Terrible service, cold food") |}] in
  score_of sample_scores (heap tied_state !!! 1) =
    score_of sample_scores (heap tied_state !!! 3) ∧
  ∃ kept order, kept `sublist_of` reviews tied_state ∧ order ≡ₚ kept ∧
    Forall2 (λ r rv, scored sample_scores (heap tied_state !!! r) rv) order body ∧
    ∀ k, filter (λ r, score_of sample_scores (heap tied_state !!! r) = k) order =
         filter (λ r, score_of sample_scores (heap tied_state !!! r) = k) kept.
Proof.
  intros body. split; [reflexivity|].
  apply (ties_keep_store_order sample_scores (Some "Denver, Colorado") None None
           tied_state body tied_state_wf).
  vm_compute. reflexivity.
Defined.

(** Over [tied_state] the location filter selects [0; 1; 3] and the
    response comes in the order [1; 3; 0]: the two neutral records, tied,
    in store order. *)
Example ties_example :
  ReviewId <$>
    match (query sample_scores (Some "Denver, Colorado") None None tied_state).1 with
    | Returned (Ok200 body) => body
    | _ => []
    end = ["id-1"; "id-3"; "id-0"].
Proof. vm_compute. reflexivity. Qed.

(** X8: a query without a filter sorts the store itself: the store then
    holds its records in the order of the response, by descending compound
    score. *)
Theorem unfiltered_query_sorts_store sc qs st :
  get0 (parse_qs qs) "location" = None →
  get0 (parse_qs qs) "start_date" = None →
  get0 (parse_qs qs) "end_date" = None →
  (handle_get sc qs st).1 = Returned (Ok200 (records (handle_get sc qs st).2)) ∧
  descending (records (handle_get sc qs st).2).
Proof.
  intros El Es Ee. unfold handle_get. rewrite El, Es, Ee.
  rewrite (query_Next sc None None None st StoreList eq_refl).
  unfold respond, records. cbn [fst snd heap reviews contents]. split; [reflexivity|].
  unfold descending.
  eapply StronglySorted_fmap; [|apply (sort_desc_sorted
    (λ r, compound_of (annotate sc (reviews st) (heap st) !!! r)))].
  intros x y Hxy. exact Hxy.
Qed.

Lemma unfiltered_query_sorts_store_witness :
  (handle_get sample_scores [("location", "")] sample_state).1 =
    Returned (Ok200 (records (handle_get sample_scores [("location", "")] sample_state).2)) ∧
  descending (records (handle_get sample_scores [("location", "")] sample_state).2).
Proof.
  apply (unfiltered_query_sorts_store sample_scores [("location", "")] sample_state);
    reflexivity.
Defined.

(** ** The order of datetimes *)

Module DatetimeOrder.
Import Datetime.

Lemma cmp_eq a b : cmp a b = Eq → a = b.
Proof.
  destruct a as [y m d h mi s], b as [y' m' d' h' mi' s']. unfold cmp, lex. cbn.
  destruct (Nat.compare_spec y y'); try (intros H'; discriminate H').
  destruct (Nat.compare_spec m m'); try (intros H'; discriminate H').
  destruct (Nat.compare_spec d d'); try (intros H'; discriminate H').
  destruct (Nat.compare_spec h h'); try (intros H'; discriminate H').
  destruct (Nat.compare_spec mi mi'); try (intros H'; discriminate H').
  destruct (Nat.compare_spec s s'); try (intros H'; discriminate H').
  intros _. by subst.
Qed.

(** One field of the lexicographic comparison of three datetimes. *)
Ltac field x y z :=
  destruct (Nat.compare_spec x y), (Nat.compare_spec x z), (Nat.compare_spec z y);
  try lia; try (let A := fresh in intros A; discriminate A);
  try (let A := fresh in intros _ A; discriminate A);
  try (let A := fresh in intros _ _ A; discriminate A).

(** A datetime not before [a] and not after [b] shows that [b] is not
    before [a]. *)
Lemma between t a b : ge t a = true → le t b = true → cmp b a ≠ Lt.
Proof.
  destruct t as [y m d h mi s], a as [y1 m1 d1 h1 mi1 s1], b as [y2 m2 d2 h2 mi2 s2].
  unfold ge, le, cmp, lex. cbn.
  field y y1 y2. field m m1 m2. field d d1 d2. field h h1 h2. field mi mi1 mi2.
  field s s1 s2.
Qed.

Lemma ge_le_eq t a : ge t a = true → le t a = true → t = a.
Proof.
  unfold ge, le. intros Hge Hle. apply cmp_eq.
  destruct (cmp t a); [reflexivity | discriminate Hge | discriminate Hle].
Qed.

End DatetimeOrder.

Lemma le_same_day t d :
  same_day t d → at_midnight d → Datetime.le t d = true → at_midnight t.
Proof.
  destruct t as [y m dd h mi s], d as [y' m' dd' h' mi' s'].
  unfold same_day, at_midnight, Datetime.le, Datetime.cmp, Datetime.lex. cbn.
  intros (-> & -> & ->) (-> & -> & ->). rewrite !Nat.compare_refl.
  destruct h; [|intros H; discriminate H]. destruct mi; [|intros H; discriminate H].
  destruct s; [|intros H; discriminate H]. done.
Qed.

(** ** Date filters at their bounds *)

Lemma by_timestamp_elem h keep l l' r :
  by_timestamp h keep l = Some l' → r ∈ l' →
  r ∈ l ∧ ∃ t, Datetime.strptime_datetime (Timestamp (h !!! r)) = Some t ∧ keep t = true.
Proof.
  revert l'. induction l as [|a l IH]; intros l'; cbn [by_timestamp].
  - intros [= <-] Hr. by apply elem_of_nil in Hr.
  - destruct (Datetime.strptime_datetime (Timestamp (h !!! a))) as [t|] eqn:Et;
      [|intros H; discriminate H]. cbn [mbind option_bind].
    destruct (by_timestamp h keep l) as [rest|]; [|intros H; discriminate H].
    cbn [mbind option_bind]. intros [= <-] Hr.
    destruct (keep t) eqn:Ek.
    + apply elem_of_cons in Hr as [->|Hr].
      * split; [left | by exists t].
      * destruct (IH rest eq_refl Hr) as [? ?]. split; [by right | done].
    + destruct (IH rest eq_refl Hr) as [? ?]. split; [by right | done].
Qed.

Lemma start_step_elem start_date st v v' s d r :
  truthy start_date = Some s → Datetime.strptime_date s = Some d →
  start_step start_date st v = Next v' → r ∈ contents st v' →
  ∃ t, Datetime.strptime_datetime (Timestamp (heap st !!! r)) = Some t ∧
       Datetime.ge t d = true.
Proof.
  intros Hs Hd. unfold start_step. rewrite Hs. unfold mbind, flow_bind, parsed.
  rewrite Hd. destruct (by_timestamp _ _ _) as [l|] eqn:El; [|intros H; discriminate H].
  intros [= <-] Hr. cbn [contents] in Hr.
  by destruct (by_timestamp_elem _ _ _ _ _ El Hr) as [_ ?].
Qed.

Lemma end_step_elem end_date st v v' s d r :
  truthy end_date = Some s → Datetime.strptime_date s = Some d →
  end_step end_date st v = Next v' → r ∈ contents st v' →
  r ∈ contents st v ∧
  ∃ t, Datetime.strptime_datetime (Timestamp (heap st !!! r)) = Some t ∧
       Datetime.le t d = true.
Proof.
  intros Hs Hd. unfold end_step. rewrite Hs. unfold mbind, flow_bind, parsed.
  rewrite Hd. destruct (by_timestamp _ _ _) as [l|] eqn:El; [|intros H; discriminate H].
  intros [= <-] Hr. cbn [contents] in Hr.
  by apply (by_timestamp_elem _ _ _ _ _ El Hr).
Qed.

Lemma end_step_subseteq end_date st v v' r :
  end_step end_date st v = Next v' → r ∈ contents st v' → r ∈ contents st v.
Proof.
  unfold end_step. destruct (truthy end_date) as [s|]; [|by intros [= <-]].
  unfold mbind, flow_bind, parsed.
  destruct (Datetime.strptime_date s) as [d|]; [|intros H; discriminate H].
  destruct (by_timestamp _ _ _) as [l|] eqn:El; [|intros H; discriminate H].
  intros [= <-] Hr. cbn [contents] in Hr.
  by apply (by_timestamp_elem _ _ _ _ _ El Hr).
Qed.

(** What the list selected says of the timestamps when a date filter is
    given. *)
Lemma select_dates location start_date end_date st v r :
  select location start_date end_date st = Next v → r ∈ contents st v →
  (∀ s d, truthy start_date = Some s → Datetime.strptime_date s = Some d →
     ∃ t, Datetime.strptime_datetime (Timestamp (heap st !!! r)) = Some t ∧
          Datetime.ge t d = true) ∧
  (∀ s d, truthy end_date = Some s → Datetime.strptime_date s = Some d →
     ∃ t, Datetime.strptime_datetime (Timestamp (heap st !!! r)) = Some t ∧
          Datetime.le t d = true).
Proof.
  unfold select.
  destruct (location_step location st StoreList) as [v1| |];
    try (intros H; discriminate H).
  unfold mbind, flow_bind.
  destruct (start_step start_date st v1) as [v2| |] eqn:E2;
    try (intros H; discriminate H).
  intros E3 Hr. split.
  - intros s d Hs Hd. apply (start_step_elem _ _ _ _ _ _ _ Hs Hd E2).
    by eapply end_step_subseteq.
  - intros s d Hs Hd. by destruct (end_step_elem _ _ _ _ _ _ _ Hs Hd E3 Hr) as [_ ?].
Qed.

(** The records of a 200 response, as references of the list selected. *)
Lemma query_body_elem sc location start_date end_date st body rv :
  (query sc location start_date end_date st).1 = Returned (Ok200 body) → rv ∈ body →
  ∃ v r, select location start_date end_date st = Next v ∧ r ∈ contents st v ∧
    Timestamp rv = Timestamp (heap st !!! r) ∧ Location rv = Location (heap st !!! r).
Proof.
  unfold query. destruct (select location start_date end_date st) as [v|resp|e] eqn:E.
  - unfold respond. cbn [fst]. intros [= <-] Hrv.
    apply list_elem_of_fmap in Hrv as (r & -> & Hr%sort_desc_elem_of).
    exists v, r. split; [reflexivity|]. split; [exact Hr|].
    destruct (annotate_fields sc (contents st v) (heap st) r) as [-> ->]. done.
  - destruct (select_Return _ _ _ _ _ E) as [-> _]. intros H. discriminate H.
  - intros H. discriminate H.
Qed.

(** X9: the end date is the instant at midnight: of the records stamped
    on the end day, a query returns none that is stamped after 00:00:00. *)
Theorem end_day_after_midnight_excluded sc location start_date end_date st s d body rv t :
  truthy end_date = Some s → Datetime.strptime_date s = Some d →
  (query sc location start_date end_date st).1 = Returned (Ok200 body) →
  rv ∈ body → Datetime.strptime_datetime (Timestamp rv) = Some t →
  same_day t d → at_midnight t.
Proof.
  intros Hs Hd Hbody Hrv Ht Hday.
  destruct (query_body_elem sc _ _ _ _ _ _ Hbody Hrv) as (v & r & E & Hr & Hts & _).
  destruct (select_dates _ _ _ _ _ _ E Hr) as [_ He].
  destruct (He s d Hs Hd) as (t' & Ht' & Hle). rewrite Hts, Ht' in Ht.
  injection Ht as ->. apply (le_same_day t d Hday); [|exact Hle].
  apply strptime_date_midnight in Hd. unfold midnight in Hd.
  destruct d as [y m dd h mi sec]. cbn in Hd. injection Hd as <- <- <-.
  unfold at_midnight. cbn. auto.
Qed.

(** X10: a query whose start date is later than its end date returns no
    record. *)
Theorem start_after_end_empty sc location start_date end_date st s1 d1 s2 d2 body :
  truthy start_date = Some s1 → Datetime.strptime_date s1 = Some d1 →
  truthy end_date = Some s2 → Datetime.strptime_date s2 = Some d2 →
  Datetime.cmp d2 d1 = Lt →
  (query sc location start_date end_date st).1 = Returned (Ok200 body) →
  body = [].
Proof.
  intros Hs1 Hd1 Hs2 Hd2 Hlt Hbody. destruct body as [|rv body']; [done|]. exfalso.
  destruct (query_body_elem sc _ _ _ _ _ _ Hbody (list_elem_of_here rv body'))
    as (v & r & E & Hr & _).
  destruct (select_dates _ _ _ _ _ _ E Hr) as [Hs He].
  destruct (Hs s1 d1 Hs1 Hd1) as (t & Ht & Hge).
  destruct (He s2 d2 Hs2 Hd2) as (t' & Ht' & Hle). rewrite Ht in Ht'. injection Ht' as <-.
  by apply (DatetimeOrder.between t d1 d2 Hge Hle).
Qed.

(** X11: a query whose start date and end date are the same day returns
    only records stamped at 00:00:00 of that day. *)
Theorem same_start_and_end_day sc location start_date end_date st s1 s2 d body rv :
  truthy start_date = Some s1 → Datetime.strptime_date s1 = Some d →
  truthy end_date = Some s2 → Datetime.strptime_date s2 = Some d →
  (query sc location start_date end_date st).1 = Returned (Ok200 body) →
  rv ∈ body → Datetime.strptime_datetime (Timestamp rv) = Some d.
Proof.
  intros Hs1 Hd1 Hs2 Hd2 Hbody Hrv.
  destruct (query_body_elem sc _ _ _ _ _ _ Hbody Hrv) as (v & r & E & Hr & Hts & _).
  destruct (select_dates _ _ _ _ _ _ E Hr) as [Hs He].
  destruct (Hs s1 d Hs1 Hd1) as (t & Ht & Hge).
  destruct (He s2 d Hs2 Hd2) as (t' & Ht' & Hle). rewrite Ht in Ht'. injection Ht' as <-.
  rewrite Hts, Ht. f_equal. by apply DatetimeOrder.ge_le_eq.
Qed.

Lemma end_day_after_midnight_excluded_witness :
  at_midnight (Datetime.mk 2021 10 25 0 0 0).
Proof.
  refine (end_day_after_midnight_excluded sample_scores None None (Some "2021-10-25")
    midnight_state "2021-10-25" (Datetime.mk 2021 10 25 0 0 0)
    [set_sentiment sample_scores (heap midnight_state !!! 0)]
    (set_sentiment sample_scores (heap midnight_state !!! 0))
    (Datetime.mk 2021 10 25 0 0 0) _ _ _ _ _ _).
  - vm_compute. reflexivity.
  - vm_compute. reflexivity.
  - vm_compute. reflexivity.
  - apply list_elem_of_here.
  - vm_compute. reflexivity.
  - vm_compute. auto.
Defined.

Lemma start_after_end_empty_witness :
  (query sample_scores None (Some "2022-01-01") (Some "2021-01-01") sample_state).1 =
    Returned (Ok200 []) ∧ @nil Review = [].
Proof.
  assert (H : (query sample_scores None (Some "2022-01-01") (Some "2021-01-01")
                 sample_state).1 = Returned (Ok200 [])) by (vm_compute; reflexivity).
  split; [exact H|].
  refine (start_after_end_empty sample_scores None (Some "2022-01-01") (Some "2021-01-01")
    sample_state "2022-01-01" (Datetime.mk 2022 1 1 0 0 0)
    "2021-01-01" (Datetime.mk 2021 1 1 0 0 0) [] _ _ _ _ _ H).
  - vm_compute. reflexivity.
  - vm_compute. reflexivity.
  - vm_compute. reflexivity.
  - vm_compute. reflexivity.
  - vm_compute. reflexivity.
Defined.

Lemma same_start_and_end_day_witness :
  Datetime.strptime_datetime
    (Timestamp (set_sentiment sample_scores (heap midnight_state !!! 0))) =
  Some (Datetime.mk 2021 10 25 0 0 0).
Proof.
  refine (same_start_and_end_day sample_scores None (Some "2021-10-25") (Some "2021-10-25")
    midnight_state "2021-10-25" "2021-10-25" (Datetime.mk 2021 10 25 0 0 0)
    [set_sentiment sample_scores (heap midnight_state !!! 0)]
    (set_sentiment sample_scores (heap midnight_state !!! 0)) _ _ _ _ _ _).
  - vm_compute. reflexivity.
  - vm_compute. reflexivity.
  - vm_compute. reflexivity.
  - vm_compute. reflexivity.
  - vm_compute. reflexivity.
  - apply list_elem_of_here.
Defined.

(** ** Reading the parameters of a request *)

Lemma values_of_app key (a b : fields) :
  values_of key (a ++ b) = values_of key a ++ values_of key b.
Proof.
  unfold values_of.
  by rewrite (filter_app (λ f : string * string, f.1 = key ∧ f.2 ≠ "")), fmap_app.
Qed.

(** X12: of the values a request gives a parameter, a handler reads the
    first that is not blank: blank values before it are skipped, and what
    follows it, of the same name or another, does not count. *)
Theorem first_value_wins key (pre post : fields) v :
  v ≠ "" → (∀ v', (key, v') ∈ pre → v' = "") →
  get0 (parse_qs (pre ++ (key, v) :: post)) key = Some v.
Proof.
  intros Hv Hpre.
  rewrite get0_parse_qs, values_of_app, (values_of_blank key pre Hpre), values_of_cons.
  rewrite decide_True; [reflexivity|]. split; [reflexivity | exact Hv].
Qed.

Lemma first_value_wins_witness :
  get0 (parse_qs ([("location", ""); ("start_date", "2021-01-01")] ++
                  ("location", "Denver, Colorado") ::
                  [("location", "Phoenix, Arizona")])) "location" =
  Some "Denver, Colorado".
Proof.
  refine (first_value_wins "location" [("location", ""); ("start_date", "2021-01-01")]
            [("location", "Phoenix, Arizona")] "Denver, Colorado" _ _).
  - intros H; discriminate H.
  - intros v' Hin. apply elem_of_cons in Hin as [Hin|Hin].
    + by injection Hin.
    + apply elem_of_cons in Hin as [Hin|Hin]; [discriminate Hin|].
      by apply elem_of_nil in Hin.
Defined.

(** X13: a query reads the fields [location], [start_date] and [end_date]
    only: removing the fields of any other name from the request changes
    neither the outcome nor the store. *)
Theorem handle_get_other_fields sc key qs st :
  key ∉ ["location"; "start_date"; "end_date"] →
  handle_get sc (without key qs) st = handle_get sc qs st.
Proof.
  intros Hk. unfold handle_get. rewrite !get0_parse_qs.
  rewrite !values_of_without; [reflexivity| | |]; intros <-; apply Hk.
  - do 2 right. left.
  - right. left.
  - left.
Qed.

Lemma handle_get_other_fields_witness :
  handle_get sample_scores
    (without "Location" [("Location", "Phoenix, Arizona"); ("start_date", "2021-01-01")])
    sample_state =
  handle_get sample_scores
    [("Location", "Phoenix, Arizona"); ("start_date", "2021-01-01")] sample_state.
Proof.
  refine (handle_get_other_fields sample_scores "Location" _ sample_state _).
  intros Hin. apply elem_of_cons in Hin as [Hin|Hin]; [discriminate Hin|].
  apply elem_of_cons in Hin as [Hin|Hin]; [discriminate Hin|].
  apply elem_of_cons in Hin as [Hin|Hin]; [discriminate Hin|].
  by apply elem_of_nil in Hin.
Defined.

(** X14: a submission reads the fields [Location] and [ReviewBody] only:
    a [ReviewId], [Timestamp] or [sentiment] field of the form, like any
    field of another name, changes neither the response nor the record
    stored. *)
Theorem handle_post_other_fields sc key form uuid4 now st :
  key ∉ ["Location"; "ReviewBody"] →
  handle_post sc (without key form) uuid4 now st = handle_post sc form uuid4 now st.
Proof.
  intros Hk. unfold handle_post. rewrite !get0_parse_qs.
  rewrite !values_of_without; [reflexivity| |]; intros <-; apply Hk.
  - right. left.
  - left.
Qed.

Lemma handle_post_other_fields_witness :
  handle_post sample_scores
    (without "ReviewId" [("ReviewId", "mine"); ("Location", "Denver, Colorado");
                         ("ReviewBody", "Amazing meal, wonderful staff")])
    "id-2" (Datetime.mk 2024 5 17 12 30 0) sample_state =
  handle_post sample_scores
    [("ReviewId", "mine"); ("Location", "Denver, Colorado");
     ("ReviewBody", "Amazing meal, wonderful staff")]
    "id-2" (Datetime.mk 2024 5 17 12 30 0) sample_state.
Proof.
  refine (handle_post_other_fields sample_scores "ReviewId" _ "id-2"
            (Datetime.mk 2024 5 17 12 30 0) sample_state _).
  intros Hin. apply elem_of_cons in Hin as [Hin|Hin]; [discriminate Hin|].
  apply elem_of_cons in Hin as [Hin|Hin]; [discriminate Hin|].
  by apply elem_of_nil in Hin.
Defined.

(** ** A submission seen through the date filters *)

(** X15: the timestamp written for a submission reads back as the clock
    reading it was made from, for a clock in the years 1000 to 9999: a later
    query with a start and an end date returns the new record exactly when
    the clock reading is not before midnight of the start date and not after
    midnight of the end date. *)
Theorem submitted_record_date_window sc form uuid4 now st rv
    start_date end_date s1 d1 s2 d2 :
  wf st → timestamps_wf st →
  Datetime.valid now = true →
  (1000 ≤ Datetime.year now ≤ Datetime.MAXYEAR)%nat →
  (handle_post sc form uuid4 now st).1 = Returned (Created201 rv) →
  truthy start_date = Some s1 → Datetime.strptime_date s1 = Some d1 →
  truthy end_date = Some s2 → Datetime.strptime_date s2 = Some d2 →
  ∃ body,
    (query sc None start_date end_date (handle_post sc form uuid4 now st).2).1 =
      Returned (Ok200 body) ∧
    (rv ∈ body ↔ Datetime.ge now d1 = true ∧ Datetime.le now d2 = true).
Proof.
  intros Hwf Hts Hvalid [_ Hyear] Hpost Hs1 Hd1 Hs2 Hd2.
  unfold handle_post in *.
  destruct (submit_Created sc _ _ _ _ _ _ Hpost) as (loc & rb & Hl & Hb & Hin).
  destruct (submit_records sc _ _ uuid4 now st loc rb Hl Hb Hin Hwf)
    as (Hout & Hrec & Hnew & Hmem & Hwf' & _). cbv zeta in Hout, Hrec, Hnew, Hmem, Hwf'.
  rewrite Hout in Hpost. injection Hpost as <-.
  set (rv := {| ReviewId := uuid4; Location := loc; Timestamp := Datetime.strftime now;
                ReviewBody := rb; sentiment := Some (sc rb) |}) in *.
  set (st' := (submit sc _ _ uuid4 now st).2) in *.
  assert (Hnow : Datetime.strptime_datetime (Timestamp rv) = Some now)
    by exact (DatetimeFacts.strptime_strftime now Hvalid Hyear).
  assert (Hts' : timestamps_wf st').
  { apply timestamps_wf_records. rewrite Hrec. apply Forall_app. split.
    - by apply timestamps_wf_records.
    - apply Forall_cons. split; [|apply Forall_nil_2]. rewrite Hnow. by eexists. }
  destruct (select_filters None start_date end_date st') as (v & Ev & Hv).
  { intros l0 H0. discriminate H0. }
  { intros s Hs. rewrite Hs1 in Hs. injection Hs as <-. rewrite Hd1. by eexists. }
  { intros s Hs. rewrite Hs2 in Hs. injection Hs as <-. rewrite Hd2. by eexists. }
  { exact Hts'. }
  rewrite (query_Next sc _ _ _ _ _ Ev).
  destruct (respond_body sc v st') as (body & Hbody & Hperm & _).
  { intros r Hr. apply Hwf'. rewrite Hv in Hr.
    by apply list_elem_of_filter in Hr as [_ [_ [_ Hr]%list_elem_of_filter]%list_elem_of_filter]. }
  exists body. split; [exact Hbody|].
  assert (Hverdict : ∀ rv', Timestamp rv' = Timestamp rv →
            (not_before start_date rv' = true ∧ not_after end_date rv' = true) ↔
            (Datetime.ge now d1 = true ∧ Datetime.le now d2 = true)).
  { intros rv' Ht. unfold not_before, not_after.
    rewrite Hs1, Hs2, Hd1, Hd2, Ht, Hnow.
    by rewrite (strptime_date_midnight _ _ Hd1), (strptime_date_midnight _ _ Hd2). }
  rewrite Hperm, list_elem_of_fmap, Hv. split.
  - intros (r & Hr & Hin'). apply (Hverdict (heap st' !!! r)).
    { by rewrite Hr. }
    apply list_elem_of_filter in Hin' as [He [Hs _]%list_elem_of_filter].
    split; [by apply Is_true_true_1 | by apply Is_true_true_1].
  - intros Hwin. exists (fresh (dom (heap st))).
    assert (Hlook : heap st' !!! fresh (dom (heap st)) = rv)
      by (by rewrite lookup_total_alt, Hnew).
    rewrite Hlook. split; [reflexivity|].
    apply (Hverdict rv eq_refl) in Hwin as [Hs He].
    apply list_elem_of_filter. rewrite Hlook. split; [by apply Is_true_true_2|].
    apply list_elem_of_filter. rewrite Hlook. split; [by apply Is_true_true_2|].
    apply list_elem_of_filter. split; [|exact Hmem]. unfold location_matches.
    reflexivity.
Qed.

Lemma submitted_record_date_window_witness :
  let form := [("Location", "Denver, Colorado");
               ("ReviewBody", "Amazing meal, wonderful staff")] in
  let now := Datetime.mk 2024 5 17 12 30 0 in
  let rv := {| ReviewId := "id-2"; Location := "Denver, Colorado";
               Timestamp := "2024-05-17 12:30:00";
               ReviewBody := "Amazing meal, wonderful staff";
               sentiment := Some (sample_scores "Amazing meal, wonderful staff") |} in
  ∃ body,
    (query sample_scores None (Some "2024-05-17") (Some "2024-05-18")
       (handle_post sample_scores form "id-2" now sample_state).2).1 =
      Returned (Ok200 body) ∧
    (rv ∈ body ↔
     Datetime.ge now (Datetime.mk 2024 5 17 0 0 0) = true ∧
     Datetime.le now (Datetime.mk 2024 5 18 0 0 0) = true).
Proof.
  intros form now rv.
  refine (submitted_record_date_window sample_scores form "id-2" now sample_state rv
    (Some "2024-05-17") (Some "2024-05-18") "2024-05-17" (Datetime.mk 2024 5 17 0 0 0)
    "2024-05-18" (Datetime.mk 2024 5 18 0 0 0)
    sample_state_wf sample_state_timestamps_wf _ _ _ _ _ _ _).
  - reflexivity.
  - unfold Datetime.MAXYEAR, now. cbn [Datetime.year]. lia.
  - vm_compute. reflexivity.
  - vm_compute. reflexivity.
  - vm_compute. reflexivity.
  - vm_compute. reflexivity.
  - vm_compute. reflexivity.
Defined.

(** ** Timestamps the date filters cannot read *)

Lemma by_timestamp_unreadable h keep l r :
  r ∈ l → Datetime.strptime_datetime (Timestamp (h !!! r)) = None →
  by_timestamp h keep l = None.
Proof.
  intros Hr Hbad. induction l as [|a l IH]; [by apply elem_of_nil in Hr|].
  cbn [by_timestamp]. apply elem_of_cons in Hr as [<-|Hr].
  - rewrite Hbad. reflexivity.
  - rewrite (IH Hr). by destruct (Datetime.strptime_datetime (Timestamp (h !!! a))).
Qed.

Lemma start_step_given_unreadable start_date st v r :
  is_Some (truthy start_date) → r ∈ contents st v →
  Datetime.strptime_datetime (Timestamp (heap st !!! r)) = None →
  start_step start_date st v = Raise ValueError.
Proof.
  intros [s Hs] Hr Hbad. unfold start_step. rewrite Hs. unfold mbind, flow_bind, parsed.
  destruct (Datetime.strptime_date s) as [d|]; [|reflexivity].
  by rewrite (by_timestamp_unreadable _ _ _ r Hr Hbad).
Qed.

Lemma end_step_given_unreadable end_date st v r :
  is_Some (truthy end_date) → r ∈ contents st v →
  Datetime.strptime_datetime (Timestamp (heap st !!! r)) = None →
  end_step end_date st v = Raise ValueError.
Proof.
  intros [s Hs] Hr Hbad. unfold end_step. rewrite Hs. unfold mbind, flow_bind, parsed.
  destruct (Datetime.strptime_date s) as [d|]; [|reflexivity].
  by rewrite (by_timestamp_unreadable _ _ _ r Hr Hbad).
Qed.

(** X16: a stored record whose timestamp is ASCII text that [strptime]
    rejects makes every query with a start or an end date raise
    [ValueError], whatever the dates, as soon as the record passes the
    location filter; the store is unchanged. *)
Theorem unreadable_timestamp_raises sc location start_date end_date st r :
  location_wf location →
  is_Some (truthy start_date) ∨ is_Some (truthy end_date) →
  r ∈ reviews st → location_matches location (heap st !!! r) = true →
  isascii (Timestamp (heap st !!! r)) = true →
  Datetime.strptime_datetime (Timestamp (heap st !!! r)) = None →
  query sc location start_date end_date st = (Raised ValueError, st).
Proof.
  intros Hloc Hdate Hr Hmatch _ Hbad. apply query_Raise. unfold select.
  destruct (location_step_ok location st Hloc) as (v1 & -> & H1).
  unfold mbind, flow_bind.
  assert (Hr1 : r ∈ contents st v1).
  { rewrite H1. apply list_elem_of_filter. split; [by apply Is_true_true_2 | exact Hr]. }
  destruct (truthy start_date) as [s|] eqn:Hs.
  - rewrite (start_step_given_unreadable start_date st v1 r); [reflexivity| |exact Hr1|exact Hbad].
    rewrite Hs. by eexists.
  - assert (start_step start_date st v1 = Next v1) as -> by (unfold start_step; by rewrite Hs).
    destruct Hdate as [[? Hd]|Hd]; [discriminate Hd|].
    exact (end_step_given_unreadable end_date st v1 r Hd Hr1 Hbad).
Qed.

Lemma unreadable_timestamp_raises_witness :
  query sample_scores None None (Some "2021-10-26") iso_state =
    (Raised ValueError, iso_state).
Proof.
  refine (unreadable_timestamp_raises sample_scores None None (Some "2021-10-26")
            iso_state 0 _ _ _ _ _ _).
  - intros loc H. discriminate H.
  - right. vm_compute. by eexists.
  - apply list_elem_of_here.
  - reflexivity.
  - reflexivity.
  - vm_compute. reflexivity.
Defined.
